(** * Git Account Manager: account registry, repository resolver, identity applier

    A shallow embedding of the TypeScript services of the extension
    (AccountManager, SecretStorageService, RepoMappingService, GitService)
    and the properties of its specification.

    Conventions.
    - A JavaScript string is a Rocq [string]: the bytes of its UTF-8 form.
    - [undefined] is [None]; an optional field [f?: string] is an
      [option string]; JavaScript truthiness of a string is [truthy].
    - Mutable service state is passed explicitly: an operation takes the
      state before and returns the state after, next to its result.
    - A call that can throw yields an [outcome]; where the state it
      leaves matters, the state stands next to the outcome.
    - What the host gives (the clock, the random source, lower-casing, the
      JSON reader, path arithmetic) is an input: see [Entropy], [Platform];
      so is what the shell and git make of a command line, see [Shell],
      and whether the operating system refuses a write, see [Writes]. *)

From Stdlib Require Import Ascii String List.
From stdpp Require Import base option list strings gmap pretty.

(** ** JavaScript string primitives *)

Module JS.

(** [!!s] for a string: only the empty string is falsy. *)
Definition truthy (s : string) : bool :=
  match s with
  | EmptyString => false
  | String _ _ => true
  end.

(** Truthiness of [string | undefined]. *)
Definition truthy_opt (o : option string) : bool :=
  match o with
  | None => false
  | Some s => truthy s
  end.

(** [s.startsWith(p)] *)
Fixpoint startsWith (s p : string) {struct p} : bool :=
  match p, s with
  | EmptyString, _ => true
  | String _ _, EmptyString => false
  | String b p', String a s' => if Ascii.eqb a b then startsWith s' p' else false
  end.

(** [s.includes(p)]: [p] occurs in [s] at some position. *)
Fixpoint includes (s p : string) : bool :=
  startsWith s p ||
  match s with
  | EmptyString => false
  | String _ s' => includes s' p
  end.

(** [s.substr(from, len)] for non-negative arguments. *)
Definition substr (s : string) (from len : nat) : string :=
  String.substring from len s.

(** A value that comes out of [JSON.parse], as far as the code tells
    such values apart: a string, or a value that is not a string (a
    number, a boolean, [null], an array, an object) with its
    truthiness. *)
Inductive value :=
  | Str (s : string)
  | NotString (truth : bool).

Definition truthy_value (v : value) : bool :=
  match v with
  | Str s => truthy s
  | NotString truth => truth
  end.

End JS.

(** ** Data model (types.ts) *)

Inductive AuthType := ssh | pat.

#[global] Instance AuthType_eq_dec : EqDecision AuthType.
Proof. solve_decision. Defined.

Module GitAccount.
Record t := mk {
  id : string;
  name : string;
  username : string;
  email : string;
  authType : AuthType;
  sshKeyPath : option string;
  sshHost : option string
}.
End GitAccount.

(** [Omit<GitAccount, 'id'>] *)
Module AccountDraft.
Record t := mk {
  name : string;
  username : string;
  email : string;
  authType : AuthType;
  sshKeyPath : option string;
  sshHost : option string
}.
End AccountDraft.

(** [Partial<Omit<GitAccount, 'id'>>]: [None] is a property that is not
    given; the two optional fields can be given as [undefined]. *)
Module AccountUpdates.
Record t := mk {
  name : option string;
  username : option string;
  email : option string;
  authType : option AuthType;
  sshKeyPath : option (option string);
  sshHost : option (option string)
}.
End AccountUpdates.

Module RepoMapping.
Record t := mk {
  repoPath : string;
  accountId : string;
  remotePattern : option string
}.
End RepoMapping.

Module GitAccountConfig.
Record t := mk {
  accountId : option string;
  accountName : option string
}.
End GitAccountConfig.

(** What [JSON.parse(content) as GitAccountConfig] gives: the cast checks
    nothing, so the two properties hold whatever the file holds, and
    [None] is a property that is not there. *)
Module FileConfig.
Record t := mk {
  accountId : option JS.value;
  accountName : option JS.value
}.

(** An object whose properties are strings, as the interface has it. *)
Definition ofStrings (config : GitAccountConfig.t) : t :=
  {| accountId := JS.Str <$> GitAccountConfig.accountId config;
     accountName := JS.Str <$> GitAccountConfig.accountName config |}.

(** Both properties are strings or absent. *)
Definition typed (config : t) : bool :=
  match accountId config, accountName config with
  | Some (JS.NotString _), _ | _, Some (JS.NotString _) => false
  | _, _ => true
  end.
End FileConfig.

Module STORAGE_KEYS.
Definition ACCOUNTS : string := "gitManager.accounts".
Definition MAPPINGS : string := "gitManager.repoMappings".
Definition PAT_PREFIX : string := "gitManager.pat.".
End STORAGE_KEYS.

(** ** What the host provides *)

(** The two readings [generateId] takes from the host: [Date.now()] and
    the text of [Math.random().toString(36)] (such as ["0.4fzyo82mvyr"]). *)
Record Entropy := {
  now : N;
  random36 : string
}.

(** Library functions of the runtime, as an interface.
    [JSON_parse] is [JSON.parse] seen through the cast
    [as GitAccountConfig]: [None] stands for a text that makes it throw,
    or that denotes a falsy value; a truthy value that is not an object
    has neither property. *)
Class Platform := {
  toLowerCase : string → string;
  trim : string → string;
  JSON_parse : string → option FileConfig.t;
  path_join : list string → string;
  path_dirname : string → string;
  homedir : string
}.

(** ** Errors

    A call returns a value or throws an error, of which the message is
    kept. *)

Inductive outcome (A : Type) :=
  | Ok (a : A)
  | Throw (message : string).
Arguments Ok {A} a.
Arguments Throw {A} message.

(** ** SecretStorageService *)

Definition storeToken (accountId token : string) (s : gmap string string)
  : gmap string string :=
  let key := STORAGE_KEYS.PAT_PREFIX +:+ accountId in
  <[key := token]> s.

Definition getToken (accountId : string) (s : gmap string string) : option string :=
  let key := STORAGE_KEYS.PAT_PREFIX +:+ accountId in
  s !! key.

Definition deleteToken (accountId : string) (s : gmap string string)
  : gmap string string :=
  let key := STORAGE_KEYS.PAT_PREFIX +:+ accountId in
  delete key s.

Definition hasToken (accountId : string) (s : gmap string string) : bool :=
  match getToken accountId s with
  | Some token => JS.truthy token
  | None => false
  end.

(** ** AccountManager *)

(** The state the account manager works on: its in-memory array, the
    array last written to the global state under [STORAGE_KEYS.ACCOUNTS],
    and the secret storage it was constructed with. *)
Record Registry := {
  accounts : list GitAccount.t;
  globalState_accounts : list GitAccount.t;
  secretStorage : gmap string string
}.

Definition saveAccounts (r : Registry) : Registry :=
  {| accounts := accounts r;
     globalState_accounts := accounts r;
     secretStorage := secretStorage r |}.

Definition loadAccounts (r : Registry) : Registry :=
  {| accounts := globalState_accounts r;
     globalState_accounts := globalState_accounts r;
     secretStorage := secretStorage r |}.

(** Assignment to [this.accounts], and a change of the secret storage. *)
Definition setAccounts (l : list GitAccount.t) (r : Registry) : Registry :=
  {| accounts := l;
     globalState_accounts := globalState_accounts r;
     secretStorage := secretStorage r |}.

Definition setSecretStorage (s : gmap string string) (r : Registry) : Registry :=
  {| accounts := accounts r;
     globalState_accounts := globalState_accounts r;
     secretStorage := s |}.

Definition generateId (e : Entropy) : string :=
  "account_" +:+ pretty (now e) +:+ "_" +:+ JS.substr (random36 e) 2 9.

(** [{ ...account, id }] *)
Definition withId (account : AccountDraft.t) (i : string) : GitAccount.t :=
  {| GitAccount.id := i;
     GitAccount.name := AccountDraft.name account;
     GitAccount.username := AccountDraft.username account;
     GitAccount.email := AccountDraft.email account;
     GitAccount.authType := AccountDraft.authType account;
     GitAccount.sshKeyPath := AccountDraft.sshKeyPath account;
     GitAccount.sshHost := AccountDraft.sshHost account |}.

Definition addAccount (e : Entropy) (account : AccountDraft.t)
    (token : option string) (r : Registry) : Registry * GitAccount.t :=
  let newAccount := withId account (generateId e) in
  let r := setAccounts (accounts r ++ [newAccount]) r in
  let r := saveAccounts r in
  (* Store PAT if provided *)
  let r :=
    match token with
    | Some p =>
        if JS.truthy p && bool_decide (AccountDraft.authType account = pat)
        then setSecretStorage (storeToken (GitAccount.id newAccount) p (secretStorage r)) r
        else r
    | None => r
    end in
  (r, newAccount).

(** [array.findIndex(p)], with [None] for [-1]. *)
Fixpoint findIndex {A} (p : A → bool) (l : list A) : option nat :=
  match l with
  | [] => None
  | x :: l' => if p x then Some 0 else S <$> findIndex p l'
  end.

Definition hasId (i : string) (acc : GitAccount.t) : bool :=
  bool_decide (GitAccount.id acc = i).

Definition removeAccount (i : string) (r : Registry) : Registry * bool :=
  match findIndex (hasId i) (accounts r) with
  | None => (r, false)
  | Some index =>
      match accounts r !! index with
      | None => (r, false) (* not reached: [index] is within the array *)
      | Some account =>
          let r := setAccounts (delete index (accounts r)) r in
          let r := saveAccounts r in
          (* Remove PAT if it was a PAT-based account *)
          let r :=
            if bool_decide (GitAccount.authType account = pat)
            then setSecretStorage (deleteToken i (secretStorage r)) r
            else r in
          (r, true)
      end
  end.

Definition getAccounts (r : Registry) : list GitAccount.t := accounts r.

Definition getAccountById (l : list GitAccount.t) (i : string)
  : option GitAccount.t :=
  List.find (hasId i) l.

Definition getAccountByName `{Platform} (l : list GitAccount.t) (n : string)
  : option GitAccount.t :=
  List.find
    (λ acc, bool_decide (toLowerCase (GitAccount.name acc) = toLowerCase n)) l.

(** The two lookups on a value that is a string by its declared type
    only, as [detectAccountForRepo] passes the properties of the
    repository file. [acc.id === id] is false for a value that is not a
    string. [name.toLowerCase()] is evaluated in the callback of [find],
    so for every account looked at; on a value that is not a string it
    throws the [TypeError] below, [toLowerCase] being no property of a
    number, a boolean, an array or an object that [JSON.parse] made. *)
Definition getAccountById_value (l : list GitAccount.t) (i : JS.value)
  : option GitAccount.t :=
  match i with
  | JS.Str i => getAccountById l i
  | JS.NotString _ => None
  end.

Definition getAccountByName_value `{Platform} (l : list GitAccount.t)
    (n : JS.value) : outcome (option GitAccount.t) :=
  match n with
  | JS.Str n => Ok (getAccountByName l n)
  | JS.NotString _ =>
      match l with
      | [] => Ok None
      | _ :: _ => Throw "TypeError: name.toLowerCase is not a function"
      end
  end.

(** [Object.assign(account, updates)] *)
Definition assign (account : GitAccount.t) (u : AccountUpdates.t) : GitAccount.t :=
  {| GitAccount.id := GitAccount.id account;
     GitAccount.name := default (GitAccount.name account) (AccountUpdates.name u);
     GitAccount.username :=
       default (GitAccount.username account) (AccountUpdates.username u);
     GitAccount.email := default (GitAccount.email account) (AccountUpdates.email u);
     GitAccount.authType :=
       default (GitAccount.authType account) (AccountUpdates.authType u);
     GitAccount.sshKeyPath :=
       default (GitAccount.sshKeyPath account) (AccountUpdates.sshKeyPath u);
     GitAccount.sshHost :=
       default (GitAccount.sshHost account) (AccountUpdates.sshHost u) |}.

Definition updateAccount (i : string) (u : AccountUpdates.t) (r : Registry)
  : Registry * bool :=
  match findIndex (hasId i) (accounts r) with
  | None => (r, false)
  | Some index =>
      let r := setAccounts (alter (λ account, assign account u) index (accounts r)) r in
      let r := saveAccounts r in
      (r, true)
  end.

(** The operations of the account manager, as requests. *)
Inductive RegistryOp :=
  | Add (e : Entropy) (account : AccountDraft.t) (token : option string)
  | Remove (i : string)
  | Update (i : string) (u : AccountUpdates.t).

Definition perform (op : RegistryOp) (r : Registry) : Registry :=
  match op with
  | Add e account token => fst (addAccount e account token r)
  | Remove i => fst (removeAccount i r)
  | Update i u => fst (updateAccount i u r)
  end.

(** A request with its token blanked. *)
Definition withoutToken (op : RegistryOp) : RegistryOp :=
  match op with
  | Add e account _ => Add e account None
  | Remove i => Remove i
  | Update i u => Update i u
  end.

(** ** The name prompt of the add-account command (commands.ts) *)

Section AddAccountCommand.
Context `{Platform}.

(** [validateInput] of the display-name input box: the message shown,
    [None] for [undefined]. *)
Definition validateName (accts : list GitAccount.t) (value : string)
  : option string :=
  if negb (JS.truthy (trim value)) then Some "Name is required"
  else if bool_decide (is_Some (getAccountByName accts value))
  then Some "An account with this name already exists"
  else None.

End AddAccountCommand.

(** ** Control flow of a function body

    A statement of a JavaScript function body returns from the
    function, throws, or falls through to the statement after it. *)

Inductive flow (R : Type) :=
  | Return (r : R)
  | Raise (message : string)
  | Next.
Arguments Return {R} r.
Arguments Raise {R} message.
Arguments Next {R}.

Definition andThen {R} (s k : flow R) : flow R :=
  match s with
  | Return r => Return r
  | Raise message => Raise message
  | Next => k
  end.

Notation "s ';>' k" := (andThen s k) (at level 65, right associativity).

(** The outcome of a body whose last statement is a [return]. *)
Definition body {R} (s : flow R) (last : R) : outcome R :=
  match s with
  | Return r => Ok r
  | Raise message => Throw message
  | Next => Ok last
  end.

(** ** The world outside the process *)

(** Files by path, and the directories that exist. *)
Record FileSystem := {
  files : gmap string string;
  dirs : gset string
}.

Definition existsSync (fs : FileSystem) (p : string) : bool :=
  bool_decide (is_Some (files fs !! p)) || bool_decide (p ∈ dirs fs).

(** [fs.readFileSync(p, 'utf-8')], [None] when it throws. *)
Definition readFileSync (fs : FileSystem) (p : string) : option string :=
  files fs !! p.

Definition writeFileSync (fs : FileSystem) (p content : string) : FileSystem :=
  {| files := <[p := content]> (files fs); dirs := dirs fs |}.

Definition appendFileSync (fs : FileSystem) (p content : string) : FileSystem :=
  {| files := <[p := default EmptyString (files fs !! p) +:+ content]> (files fs);
     dirs := dirs fs |}.

Definition mkdirSync (fs : FileSystem) (p : string) : FileSystem :=
  {| files := files fs; dirs := {[p]} ∪ dirs fs |}.

(** The three writes above are the writes as the operating system
    carries them out. It can also refuse one: the call then throws and
    writes nothing. [Writes] is what it answers to the writes of one
    operation: [None] when it carries the write out, else the text of
    the error thrown. *)
Record Writes := {
  mkdirSync_error : option string;
  appendFileSync_error : option string;
  writeFileSync_error : option string
}.

Definition carriedOut : Writes :=
  {| mkdirSync_error := None;
     appendFileSync_error := None;
     writeFileSync_error := None |}.

(** [getRemoteUrl] runs the fixed command line
    [git config --get remote.origin.url] and yields [undefined] when it
    fails: it reads what git holds for [remote.origin.url], by working
    directory. *)
Definition getRemoteUrl (g : gmap string string) (cwd : string) : option string :=
  g !! cwd.

(** What git holds for a working directory, as far as the extension
    reads or sets it: [remote.origin.url], [user.name], [user.email]. *)
Record Repos := {
  remoteUrls : gmap string string;
  userNames : gmap string string;
  userEmails : gmap string string
}.

(** [cp.exec(command, { cwd })]: what the shell and git make of a
    command line in a directory. It gives the repositories afterwards
    and the standard output, or, when the command fails, the text
    [stderr || error.message]. The shell splits the command line into
    words itself: the code quotes nothing but the name and the email. *)
Class Shell := {
  exec : string → string → Repos → Repos * outcome string
}.

(** ** RepoMappingService *)

(** A JavaScript [Map<string, V>] is the list of its entries in insertion
    order. *)
Fixpoint Map_get {V} (m : list (string * V)) (k : string) : option V :=
  match m with
  | [] => None
  | (k', v) :: m' => if bool_decide (k' = k) then Some v else Map_get m' k
  end.

(** [map.set(k, v)]: an existing key keeps its place. *)
Fixpoint Map_set {V} (m : list (string * V)) (k : string) (v : V)
  : list (string * V) :=
  match m with
  | [] => [(k, v)]
  | (k', v') :: m' =>
      if bool_decide (k' = k) then (k', v) :: m' else (k', v') :: Map_set m' k v
  end.

Fixpoint Map_delete {V} (m : list (string * V)) (k : string) : list (string * V) :=
  match m with
  | [] => []
  | (k', v') :: m' =>
      if bool_decide (k' = k) then m' else (k', v') :: Map_delete m' k
  end.

Record MappingTable := {
  mappings : list (string * RepoMapping.t);
  globalState_mappings : list (string * RepoMapping.t)
}.

Definition saveMappings (t : MappingTable) : MappingTable :=
  {| mappings := mappings t; globalState_mappings := mappings t |}.

Definition setMapping (repoPath accountId : string) (remotePattern : option string)
    (t : MappingTable) : MappingTable :=
  saveMappings
    {| mappings :=
         Map_set (mappings t) repoPath
           {| RepoMapping.repoPath := repoPath;
              RepoMapping.accountId := accountId;
              RepoMapping.remotePattern := remotePattern |};
       globalState_mappings := globalState_mappings t |}.

Definition removeMapping (repoPath : string) (t : MappingTable) : MappingTable :=
  saveMappings
    {| mappings := Map_delete (mappings t) repoPath;
       globalState_mappings := globalState_mappings t |}.

Definition getMapping (repoPath : string) (t : MappingTable) : option RepoMapping.t :=
  Map_get (mappings t) repoPath.

Section RepoMappingService.
Context `{Platform}.

Definition gitAccountPath (repoPath : string) : string :=
  path_join [repoPath; ".gitaccount"].

Definition readGitAccountFile (fs : FileSystem) (repoPath : string)
  : option FileConfig.t :=
  let configPath := gitAccountPath repoPath in
  if existsSync fs configPath then
    match readFileSync fs configPath with
    | Some content => JSON_parse content
    | None => None
    end
  else None.

(** The [for ... of this.mappings] loop of [detectAccountForRepo]. *)
Fixpoint scanRemotePatterns (remoteUrl : string)
    (entries : list (string * RepoMapping.t)) : flow (option string) :=
  match entries with
  | [] => Next
  | (_, mapping) :: rest =>
      match RepoMapping.remotePattern mapping with
      | Some pattern =>
          if JS.truthy pattern && JS.includes remoteUrl pattern
          then Return (Some (RepoMapping.accountId mapping))
          else scanRemotePatterns remoteUrl rest
      | None => scanRemotePatterns remoteUrl rest
      end
  end.

Definition detectAccountForRepo (accts : list GitAccount.t)
    (table : list (string * RepoMapping.t)) (fs : FileSystem)
    (g : gmap string string) (repoPath : string) : outcome (option string) :=
  body
    ((* 1. Check .gitaccount file *)
     match readGitAccountFile fs repoPath with
     | Some fileConfig =>
         match FileConfig.accountId fileConfig with
         | Some accountId =>
             if JS.truthy_value accountId then
               match getAccountById_value accts accountId with
               | Some account => Return (Some (GitAccount.id account))
               | None => Next
               end
             else Next
         | None => Next
         end ;>
         match FileConfig.accountName fileConfig with
         | Some accountName =>
             if JS.truthy_value accountName then
               match getAccountByName_value accts accountName with
               | Ok (Some account) => Return (Some (GitAccount.id account))
               | Ok None => Next
               | Throw message => Raise message
               end
             else Next
         | None => Next
         end
     | None => Next
     end ;>
     (* 2. Check remote URL patterns *)
     match getRemoteUrl g repoPath with
     | Some remoteUrl =>
         if JS.truthy remoteUrl then scanRemotePatterns remoteUrl table else Next
     | None => Next
     end ;>
     (* 3. Check workspace-level mapping *)
     match Map_get table repoPath with
     | Some directMapping => Return (Some (RepoMapping.accountId directMapping))
     | None => Next
     end)
    None.

End RepoMappingService.

(** ** JSON.stringify of the object [writeGitAccountFile] builds *)

Module JSON.

(** The double quote, the backslash and the line feed. *)
Abbreviation DQ := ("034"%char) (only parsing).
Abbreviation BACKSLASH := ("092"%char) (only parsing).
Abbreviation LF := ("010"%char) (only parsing).

Definition hexDigit (n : N) : ascii :=
  ascii_of_N (if (n <? 10)%N then 48 + n else 87 + n).

(** QuoteJSONString, one character: the two-character escapes, [\u00xx]
    for the other control characters, and the character itself. *)
Definition quoteChar (c : ascii) : string :=
  let n := N_of_ascii c in
  if (n =? 34)%N then String BACKSLASH (String DQ EmptyString)
  else if (n =? 92)%N then String BACKSLASH (String BACKSLASH EmptyString)
  else if (n =? 8)%N then String BACKSLASH "b"
  else if (n =? 12)%N then String BACKSLASH "f"
  else if (n =? 10)%N then String BACKSLASH "n"
  else if (n =? 13)%N then String BACKSLASH "r"
  else if (n =? 9)%N then String BACKSLASH "t"
  else if (n <? 32)%N then
    String BACKSLASH
      ("u00" +:+ String (hexDigit (n / 16)) (String (hexDigit (n mod 16)) EmptyString))
  else String c EmptyString.

Fixpoint quoteBody (s : string) : string :=
  match s with
  | EmptyString => EmptyString
  | String c s' => quoteChar c +:+ quoteBody s'
  end.

Definition quote (s : string) : string :=
  String DQ (quoteBody s +:+ String DQ EmptyString).

(** One member line at indentation two: [  "key": "value"]. *)
Definition member (key value : string) : string :=
  "  " +:+ quote key +:+ ": " +:+ quote value.

Fixpoint joinLines (ls : list string) : string :=
  match ls with
  | [] => EmptyString
  | [l] => l
  | l :: ls' => l +:+ String "," (String LF (joinLines ls'))
  end.

(** [JSON.stringify(config, null, 2)]: a property that is [undefined]
    is left out. *)
Definition stringify (config : GitAccountConfig.t) : string :=
  let members :=
    match GitAccountConfig.accountId config with
    | Some v => [member "accountId" v]
    | None => []
    end ++
    match GitAccountConfig.accountName config with
    | Some v => [member "accountName" v]
    | None => []
    end in
  match members with
  | [] => "{}"
  | _ => String "{" (String LF (joinLines members +:+ String LF "}"))
  end.

End JSON.

Section WriteGitAccountFile.
Context `{Platform}.

(** The object [{ accountId: account.id, accountName: account.name }]. *)
Definition configOf (account : GitAccount.t) : GitAccountConfig.t :=
  {| GitAccountConfig.accountId := Some (GitAccount.id account);
     GitAccountConfig.accountName := Some (GitAccount.name account) |}.

Definition writeGitAccountFile (accts : list GitAccount.t) (fs : FileSystem)
    (repoPath accountId : string) : outcome FileSystem :=
  match getAccountById accts accountId with
  | None => Throw "Account not found"
  | Some account =>
      let config := configOf account in
      let configPath := gitAccountPath repoPath in
      Ok (writeFileSync fs configPath (JSON.stringify config))
  end.

(** The same function when the operating system may refuse the write. *)
Definition writeGitAccountFile_under (os : Writes) (accts : list GitAccount.t)
    (fs : FileSystem) (repoPath accountId : string) : outcome FileSystem :=
  match getAccountById accts accountId with
  | None => Throw "Account not found"
  | Some account =>
      let config := configOf account in
      let configPath := gitAccountPath repoPath in
      match writeFileSync_error os with
      | Some error => Throw error
      | None => Ok (writeFileSync fs configPath (JSON.stringify config))
      end
  end.

End WriteGitAccountFile.

(** ** GitService *)

Module Regex.

Abbreviation CR := ("013"%char) (only parsing).

(** The UTF-8 forms of U+2028 and U+2029. *)
Definition LS : string :=
  String "226"%char (String "128"%char (String "168"%char EmptyString)).
Definition PS : string :=
  String "226"%char (String "128"%char (String "169"%char EmptyString)).

(** Some position of [s] holds a line terminator: a character that [.]
    does not match. *)
Fixpoint hasLineTerminator (s : string) : bool :=
  match s with
  | EmptyString => false
  | String c s' =>
      Ascii.eqb c JSON.LF || Ascii.eqb c CR
      || JS.startsWith s LS || JS.startsWith s PS
      || hasLineTerminator s'
  end.

(** [s] without the prefix [p], when it starts with it. *)
Fixpoint stripPrefix (s p : string) {struct p} : option string :=
  match p, s with
  | EmptyString, _ => Some s
  | String _ _, EmptyString => None
  | String b p', String a s' => if Ascii.eqb a b then stripPrefix s' p' else None
  end.

(** [([^:]+):] at the head of [s]: the characters before the first
    colon, and what follows that colon. The class excludes the colon, so
    the group cannot end anywhere else. *)
Fixpoint untilColon (s : string) : option (string * string) :=
  match s with
  | EmptyString => None
  | String c s' =>
      if Ascii.eqb c ":" then Some (EmptyString, s')
      else
        match untilColon s' with
        | Some (h, rest) => Some (String c h, rest)
        | None => None
        end
  end.

(** [url.match(/^git@([^:]+):(.+)$/)]: the two groups of the match. *)
Definition sshUrlPattern (url : string) : option (string * string) :=
  match stripPrefix url "git@" with
  | None => None
  | Some afterUser =>
      match untilColon afterUser with
      | None => None
      | Some (host, path) =>
          if JS.truthy host && JS.truthy path && negb (hasLineTerminator path)
          then Some (host, path)
          else None
      end
  end.

End Regex.

(** ** GitService: the calls of git *)

Section GitService.
Context `{Platform} `{Shell}.

(** [workspaceFolder] is [vscode.workspace.workspaceFolders?.[0]?.uri.fsPath],
    which [execGit] falls back on. *)
Variable workspaceFolder : option string.

Definition execGit (args : list string) (cwd : string) (g : Repos)
  : Repos * outcome string :=
  let folder := if JS.truthy cwd then cwd else default EmptyString workspaceFolder in
  if negb (JS.truthy folder) then (g, Throw "No workspace folder found")
  else
    let '(g', result) := exec ("git " +:+ String.concat " " args) folder g in
    (g',
     match result with
     | Ok stdout => Ok (trim stdout)
     | Throw message => Throw message
     end).

Definition setUserConfig (name email cwd : string) (g : Repos)
  : Repos * outcome unit :=
  match execGit ["config"; "user.name";
                 String JSON.DQ (name +:+ String JSON.DQ EmptyString)] cwd g with
  | (g, Throw message) => (g, Throw message)
  | (g, Ok _) =>
      match execGit ["config"; "user.email";
                     String JSON.DQ (email +:+ String JSON.DQ EmptyString)] cwd g with
      | (g, Throw message) => (g, Throw message)
      | (g, Ok _) => (g, Ok ())
      end
  end.

Definition setRemoteUrl (url cwd : string) (g : Repos) : Repos * outcome unit :=
  match execGit ["remote"; "set-url"; "origin"; url] cwd g with
  | (g, Throw message) => (g, Throw message)
  | (g, Ok _) => (g, Ok ())
  end.

Definition configureSSHForAccount (account : GitAccount.t) (cwd : string)
    (g : Repos) : Repos * outcome unit :=
  match GitAccount.authType account, GitAccount.sshHost account with
  | ssh, Some sshHost =>
      if JS.truthy sshHost then
        match getRemoteUrl (remoteUrls g) cwd with
        | Some currentUrl =>
            if JS.truthy currentUrl then
              match Regex.sshUrlPattern currentUrl with
              | Some (_, path) =>
                  let newUrl := "git@" +:+ sshHost +:+ ":" +:+ path in
                  setRemoteUrl newUrl cwd g
              | None => (g, Ok ())
              end
            else (g, Ok ())
        | None => (g, Ok ())
        end
      else (g, Ok ())
  | _, _ => (g, Ok ())
  end.

End GitService.

Definition generateSSHConfigEntry (account : GitAccount.t) : string :=
  match GitAccount.authType account, GitAccount.sshHost account,
        GitAccount.sshKeyPath account with
  | ssh, Some sshHost, Some sshKeyPath =>
      if JS.truthy sshHost && JS.truthy sshKeyPath then
        String JSON.LF ("# Git Account Manager - " +:+ GitAccount.name account) +:+
        String JSON.LF ("Host " +:+ sshHost) +:+
        String JSON.LF "    HostName github.com" +:+
        String JSON.LF "    User git" +:+
        String JSON.LF ("    IdentityFile " +:+ sshKeyPath) +:+
        String JSON.LF "    IdentitiesOnly yes" +:+
        String JSON.LF EmptyString
      else EmptyString
  | _, _, _ => EmptyString
  end.

Section SSHConfig.
Context `{Platform}.

Definition getSSHConfigPath : string := path_join [homedir; ".ssh"; "config"].

Definition isSSHHostConfigured (fs : FileSystem) (hostAlias : string) : bool :=
  let configPath := getSSHConfigPath in
  match readFileSync fs configPath with
  | Some content => JS.includes content ("Host " +:+ hostAlias)
  | None => false
  end.

Definition addSSHConfigEntry (account : GitAccount.t) (fs : FileSystem)
  : FileSystem :=
  match GitAccount.authType account, GitAccount.sshHost account with
  | ssh, Some sshHost =>
      if JS.truthy sshHost then
        let configPath := getSSHConfigPath in
        let entry := generateSSHConfigEntry account in
        if negb (JS.truthy entry) then fs
        else if isSSHHostConfigured fs sshHost then fs
        else
          let sshDir := path_dirname configPath in
          let fs1 := if negb (existsSync fs sshDir) then mkdirSync fs sshDir else fs in
          appendFileSync fs1 configPath entry
      else fs
  | _, _ => fs
  end.

(** The same function when the operating system may refuse a write: the
    file system as the call leaves it, and whether it returned or
    threw. *)
Definition addSSHConfigEntry_under (os : Writes) (account : GitAccount.t)
    (fs : FileSystem) : FileSystem * outcome unit :=
  match GitAccount.authType account, GitAccount.sshHost account with
  | ssh, Some sshHost =>
      if JS.truthy sshHost then
        let configPath := getSSHConfigPath in
        let entry := generateSSHConfigEntry account in
        if negb (JS.truthy entry) then (fs, Ok ())
        else if isSSHHostConfigured fs sshHost then (fs, Ok ())
        else
          let sshDir := path_dirname configPath in
          let made :=
            if negb (existsSync fs sshDir) then
              match mkdirSync_error os with
              | Some error => (fs, Throw error)
              | None => (mkdirSync fs sshDir, Ok ())
              end
            else (fs, Ok ()) in
          match made with
          | (fs1, Throw error) => (fs1, Throw error)
          | (fs1, Ok _) =>
              match appendFileSync_error os with
              | Some error => (fs1, Throw error)
              | None => (appendFileSync fs1 configPath entry, Ok ())
              end
          end
      else (fs, Ok ())
  | _, _ => (fs, Ok ())
  end.

End SSHConfig.

(** ** A concrete platform

    An instance of [Platform] for texts within ASCII and POSIX paths
    without [.], [..] or doubled separators; the scenarios below are
    evaluated on it. *)

Module Posix.

Definition lowerChar (c : ascii) : ascii :=
  let n := N_of_ascii c in
  if (65 <=? n)%N && (n <=? 90)%N then ascii_of_N (n + 32) else c.

Fixpoint lower (s : string) : string :=
  match s with
  | EmptyString => EmptyString
  | String c s' => String (lowerChar c) (lower s')
  end.

(** White space and line terminators within ASCII. *)
Definition isWhiteSpace (c : ascii) : bool :=
  let n := N_of_ascii c in
  (n =? 32)%N || ((9 <=? n)%N && (n <=? 13)%N).

Fixpoint trimStart (s : string) : string :=
  match s with
  | EmptyString => s
  | String c s' => if isWhiteSpace c then trimStart s' else s
  end.

Fixpoint trimEnd (s : string) : string :=
  match s with
  | EmptyString => EmptyString
  | String c s' =>
      match trimEnd s' with
      | EmptyString => if isWhiteSpace c then EmptyString else String c EmptyString
      | t => String c t
      end
  end.

Fixpoint join (segments : list string) : string :=
  match segments with
  | [] => "."
  | [s] => s
  | s :: rest => s +:+ "/" +:+ join rest
  end.

(** The path up to its last separator. *)
Fixpoint dirname_go (s : string) : option string :=
  match s with
  | EmptyString => None
  | String c s' =>
      match dirname_go s' with
      | Some d => Some (String c d)
      | None => if Ascii.eqb c "/" then Some EmptyString else None
      end
  end.

Definition dirname (s : string) : string :=
  match dirname_go s with
  | Some EmptyString => "/"
  | Some d => d
  | None => "."
  end.

Definition isSpace (c : ascii) : bool :=
  let n := N_of_ascii c in
  (n =? 32)%N || (n =? 9)%N || (n =? 10)%N || (n =? 13)%N.

Fixpoint skipSpace (s : string) : string :=
  match s with
  | EmptyString => s
  | String c s' => if isSpace c then skipSpace s' else s
  end.

Definition hexValue (c : ascii) : option N :=
  let n := N_of_ascii c in
  if (48 <=? n)%N && (n <=? 57)%N then Some (n - 48)%N
  else if (97 <=? n)%N && (n <=? 102)%N then Some (n - 87)%N
  else if (65 <=? n)%N && (n <=? 70)%N then Some (n - 55)%N
  else None.

(** The characters of a JSON string up to its closing quote, escapes
    decoded, with the text after the quote. *)
Fixpoint stringBody (s : string) : option (string * string) :=
  match s with
  | EmptyString => None
  | String c s' =>
      if Ascii.eqb c JSON.DQ then Some (EmptyString, s')
      else if Ascii.eqb c JSON.BACKSLASH then
        match s' with
        | String e s'' =>
            let simple (d : ascii) :=
              match stringBody s'' with
              | Some (v, rest) => Some (String d v, rest)
              | None => None
              end in
            if Ascii.eqb e JSON.DQ then simple JSON.DQ
            else if Ascii.eqb e JSON.BACKSLASH then simple JSON.BACKSLASH
            else if Ascii.eqb e "/" then simple "/"%char
            else if Ascii.eqb e "b" then simple "008"%char
            else if Ascii.eqb e "f" then simple "012"%char
            else if Ascii.eqb e "n" then simple "010"%char
            else if Ascii.eqb e "r" then simple "013"%char
            else if Ascii.eqb e "t" then simple "009"%char
            else if Ascii.eqb e "u" then
              match s'' with
              | String "0" (String "0" (String h (String l s3))) =>
                  match hexValue h, hexValue l, stringBody s3 with
                  | Some hv, Some lv, Some (v, rest) =>
                      if (hv <? 8)%N
                      then Some (String (ascii_of_N (16 * hv + lv)) v, rest)
                      else None
                  | _, _, _ => None
                  end
              | _ => None
              end
            else None
        | EmptyString => None
        end
      else if (N_of_ascii c <? 32)%N then None
      else
        match stringBody s' with
        | Some (v, rest) => Some (String c v, rest)
        | None => None
        end
  end.

Definition stringLiteral (s : string) : option (string * string) :=
  match s with
  | String c s' => if Ascii.eqb c JSON.DQ then stringBody s' else None
  | EmptyString => None
  end.

Definition isDigit (c : ascii) : bool :=
  let n := N_of_ascii c in (48 <=? n)%N && (n <=? 57)%N.

Fixpoint skipDigits (s : string) : string :=
  match s with
  | EmptyString => s
  | String c s' => if isDigit c then skipDigits s' else s
  end.

(** A string, [true], [false], [null] or a non-negative integer at the
    head of a text, with the text after it. *)
Definition scalar (s : string) : option (JS.value * string) :=
  match stringLiteral s with
  | Some (v, rest) => Some (JS.Str v, rest)
  | None =>
      match Regex.stripPrefix s "true", Regex.stripPrefix s "false",
            Regex.stripPrefix s "null" with
      | Some rest, _, _ => Some (JS.NotString true, rest)
      | None, Some rest, _ => Some (JS.NotString false, rest)
      | None, None, Some rest => Some (JS.NotString false, rest)
      | None, None, None =>
          match s with
          | String c s' =>
              if Ascii.eqb c "0" then Some (JS.NotString false, s')
              else if isDigit c then Some (JS.NotString true, skipDigits s')
              else None
          | EmptyString => None
          end
      end
  end.

Definition setField (config : FileConfig.t) (key : string) (value : JS.value)
  : FileConfig.t :=
  if bool_decide (key = "accountId") then
    {| FileConfig.accountId := Some value;
       FileConfig.accountName := FileConfig.accountName config |}
  else if bool_decide (key = "accountName") then
    {| FileConfig.accountId := FileConfig.accountId config;
       FileConfig.accountName := Some value |}
  else config.

(** The members of an object whose values are scalars, after its first
    key has been reached. *)
Fixpoint members (fuel : nat) (config : FileConfig.t) (s : string)
  : option FileConfig.t :=
  match fuel with
  | O => None
  | S fuel' =>
      match stringLiteral s with
      | Some (key, s1) =>
          match skipSpace s1 with
          | String ":" s2 =>
              match scalar (skipSpace s2) with
              | Some (value, s3) =>
                  match skipSpace s3 with
                  | String "," s4 =>
                      members fuel' (setField config key value) (skipSpace s4)
                  | String "}" s4 =>
                      match skipSpace s4 with
                      | EmptyString => Some (setField config key value)
                      | String _ _ => None
                      end
                  | _ => None
                  end
              | None => None
              end
          | _ => None
          end
      | None => None
      end
  end.

(** A reader of the documents that hold an object of scalar members. *)
Definition parse (text : string) : option FileConfig.t :=
  let empty :=
    {| FileConfig.accountId := None;
       FileConfig.accountName := None |} in
  match skipSpace text with
  | String "{" s1 =>
      match skipSpace s1 with
      | String "}" s2 =>
          match skipSpace s2 with
          | EmptyString => Some empty
          | String _ _ => None
          end
      | s2 => members (String.length text) empty s2
      end
  | _ => None
  end.

#[global] Instance platform : Platform := {|
  toLowerCase := lower;
  trim := λ s, trimEnd (trimStart s);
  JSON_parse := parse;
  path_join := join;
  path_dirname := dirname;
  homedir := "/home/alice"
|}.

(** *** A shell

    Command lines made of words of letters, digits and [@ : / . _ - + = , %],
    parted by single spaces, a word or a part of it possibly between
    double quotes, where spaces are allowed as well. The shell hands such
    words on as they are; every other command line is refused here. *)

Definition isPlain (c : ascii) : bool :=
  let n := N_of_ascii c in
  ((97 <=? n)%N && (n <=? 122)%N) || ((65 <=? n)%N && (n <=? 90)%N)
  || isDigit c
  || bool_decide (c ∈ ["@"; ":"; "/"; "."; "_"; "-"; "+"; "="; ","; "%"]%char).

Fixpoint words (s : string) (quoted : bool) (word : option string)
  : option (list string) :=
  match s with
  | EmptyString =>
      if quoted then None
      else Some (match word with Some w => [w] | None => [] end)
  | String c s' =>
      let more := Some (default EmptyString word +:+ String c EmptyString) in
      if quoted then
        if Ascii.eqb c JSON.DQ then words s' false word
        else if isPlain c || Ascii.eqb c " " then words s' true more
        else None
      else if Ascii.eqb c " " then
        match word with
        | Some w => cons w <$> words s' false None
        | None => None
        end
      else if Ascii.eqb c JSON.DQ then
        words s' true (Some (default EmptyString word))
      else if isPlain c then words s' false more
      else None
  end.

(** The three git commands by which the extension sets something, in a
    directory that is a repository with a remote [origin] exactly when
    it has a URL here. *)
Definition git (args : list string) (folder : string) (g : Repos)
  : Repos * outcome string :=
  let unsupported := (g, Throw "unsupported git command") in
  match args with
  | [a; b; c] =>
      if bool_decide ([a; b] = ["config"; "user.name"]) then
        ({| remoteUrls := remoteUrls g;
            userNames := <[folder := c]> (userNames g);
            userEmails := userEmails g |}, Ok EmptyString)
      else if bool_decide ([a; b] = ["config"; "user.email"]) then
        ({| remoteUrls := remoteUrls g;
            userNames := userNames g;
            userEmails := <[folder := c]> (userEmails g) |}, Ok EmptyString)
      else unsupported
  | [a; b; c; url] =>
      if bool_decide ([a; b; c] = ["remote"; "set-url"; "origin"]) then
        match remoteUrls g !! folder with
        | Some _ =>
            ({| remoteUrls := <[folder := url]> (remoteUrls g);
                userNames := userNames g;
                userEmails := userEmails g |}, Ok EmptyString)
        | None => (g, Throw "error: No such remote 'origin'")
        end
      else unsupported
  | _ => unsupported
  end.

#[global] Instance shell : Shell := {|
  exec := λ command folder g,
    match words command false None with
    | Some (program :: args) =>
        if bool_decide (program = "git") then git args folder g
        else (g, Throw "unsupported command line")
    | _ => (g, Throw "unsupported command line")
    end
|}.

End Posix.

(** ** The detection strategies, as the specification words them *)

Section Strategies.
Context `{Platform}.

(** The account the repository's file names: by its [accountId] when
    that resolves, else by its [accountName]. *)
Definition fileOverride (accts : list GitAccount.t) (fs : FileSystem)
    (repoPath : string) : option string :=
  match readGitAccountFile fs repoPath with
  | None => None
  | Some config =>
      let byId :=
        match FileConfig.accountId config with
        | Some (JS.Str i) => if JS.truthy i then getAccountById accts i else None
        | _ => None
        end in
      let byName :=
        match FileConfig.accountName config with
        | Some (JS.Str n) => if JS.truthy n then getAccountByName accts n else None
        | _ => None
        end in
      GitAccount.id <$> (match byId with Some a => Some a | None => byName end)
  end.

(** The repository file, when there is one that parses, has the
    properties the interface [GitAccountConfig] declares: strings. *)
Definition typedFile (fs : FileSystem) (repoPath : string) : bool :=
  match readGitAccountFile fs repoPath with
  | Some config => FileConfig.typed config
  | None => true
  end.

(** The repository file has a truthy [accountName] that is not a string,
    its [accountId] names no account, and there is an account to compare
    the name with. *)
Definition untypedName (accts : list GitAccount.t) (fs : FileSystem)
    (repoPath : string) : bool :=
  match readGitAccountFile fs repoPath with
  | Some config =>
      match FileConfig.accountName config, accts with
      | Some (JS.NotString true), _ :: _ =>
          match FileConfig.accountId config with
          | Some accountId =>
              negb (JS.truthy_value accountId
                    && bool_decide (is_Some (getAccountById_value accts accountId)))
          | None => true
          end
      | _, _ => false
      end
  | None => false
  end.

(** A mapping's [remotePattern] is a non-empty substring of the URL. *)
Definition patternMatches (remoteUrl : string) (m : RepoMapping.t) : bool :=
  match RepoMapping.remotePattern m with
  | Some p => JS.truthy p && JS.includes remoteUrl p
  | None => false
  end.

(** The first mapping, in table order, whose pattern matches the
    repository's remote URL. *)
Definition remotePatternMapping (table : list (string * RepoMapping.t))
    (g : gmap string string) (repoPath : string) : option string :=
  match getRemoteUrl g repoPath with
  | Some remoteUrl =>
      if JS.truthy remoteUrl then
        (λ entry, RepoMapping.accountId (snd entry)) <$>
          List.find (λ entry, patternMatches remoteUrl (snd entry)) table
      else None
  | None => None
  end.

(** The mapping keyed exactly by the path. *)
Definition directPathMapping (table : list (string * RepoMapping.t))
    (repoPath : string) : option string :=
  RepoMapping.accountId <$> Map_get table repoPath.

(** First match wins. *)
Fixpoint firstMatch (strategies : list (option string)) : option string :=
  match strategies with
  | [] => None
  | Some a :: _ => Some a
  | None :: rest => firstMatch rest
  end.

(** Strategies two and three alone. *)
Definition persistedMappings (table : list (string * RepoMapping.t))
    (g : gmap string string) (repoPath : string) : option string :=
  firstMatch [remotePatternMapping table g repoPath; directPathMapping table repoPath].

End Strategies.

(** ** Scenarios

    The accounts, repositories and files the example runs below use; the
    first account is that of the specification's example. *)

Module Scenario.

Definition work : GitAccount.t :=
  {| GitAccount.id := "account_1700000000000_4fzyo82mv";
     GitAccount.name := "Work";
     GitAccount.username := "alice";
     GitAccount.email := "alice@co.com";
     GitAccount.authType := ssh;
     GitAccount.sshKeyPath := Some "~/.ssh/id_work";
     GitAccount.sshHost := Some "github.com-work" |}.

Definition personal : GitAccount.t :=
  {| GitAccount.id := "account_1700000000999_k3x9q0d2a";
     GitAccount.name := "Personal";
     GitAccount.username := "alice-home";
     GitAccount.email := "alice@home.org";
     GitAccount.authType := pat;
     GitAccount.sshKeyPath := None;
     GitAccount.sshHost := None |}.

Definition registry : Registry :=
  {| accounts := [work; personal];
     globalState_accounts := [work; personal];
     secretStorage :=
       {[ "gitManager.pat.account_1700000000999_k3x9q0d2a" := "ghp_example" ]} |}.

Definition repo : string := "/home/alice/project".

Definition noFiles : FileSystem := {| files := ∅; dirs := ∅ |}.

(** A repository file that names the account [Work] by its id. *)
Definition fileNamesWork : FileSystem :=
  {| files :=
       {[ "/home/alice/project/.gitaccount" := JSON.stringify (configOf work) ]};
     dirs := {[ "/home/alice/project" ]} |}.

(** A repository file whose id names no account and whose name is that
    of [Work] in capitals. *)
Definition fileNamesWORK : FileSystem :=
  {| files :=
       {[ "/home/alice/project/.gitaccount" :=
            JSON.stringify
              {| GitAccountConfig.accountId := Some "account_1_gone";
                 GitAccountConfig.accountName := Some "WORK" |} ]};
     dirs := {[ "/home/alice/project" ]} |}.

Definition directToPersonal : list (string * RepoMapping.t) :=
  [("/home/alice/project",
    {| RepoMapping.repoPath := "/home/alice/project";
       RepoMapping.accountId := "account_1700000000999_k3x9q0d2a";
       RepoMapping.remotePattern := None |})].

(** A pattern mapping to [Work] registered for another clone, and a
    direct mapping of this repository to [Personal]. *)
Definition patternToWork : list (string * RepoMapping.t) :=
  [("/home/alice/other-clone",
    {| RepoMapping.repoPath := "/home/alice/other-clone";
       RepoMapping.accountId := "account_1700000000000_4fzyo82mv";
       RepoMapping.remotePattern := Some "github.com:acme/" |});
   ("/home/alice/project",
    {| RepoMapping.repoPath := "/home/alice/project";
       RepoMapping.accountId := "account_1700000000999_k3x9q0d2a";
       RepoMapping.remotePattern := None |})].

Definition originAcme : gmap string string :=
  {[ "/home/alice/project" := "git@github.com:acme/widgets.git" ]}.

Definition originAlice : gmap string string :=
  {[ "/home/alice/project" := "git@github.com:alice/project.git" ]}.

(** The same remote, reached as the user [alice]. *)
Definition originAsAlice : gmap string string :=
  {[ "/home/alice/project" := "alice@github.com:alice/project.git" ]}.

(** A draft whose name is that of [work] in lower case. *)
Definition draftLowerWork : AccountDraft.t :=
  {| AccountDraft.name := "work";
     AccountDraft.username := "bob";
     AccountDraft.email := "bob@co.com";
     AccountDraft.authType := pat;
     AccountDraft.sshKeyPath := None;
     AccountDraft.sshHost := None |}.

Definition draftClient : AccountDraft.t :=
  {| AccountDraft.name := "Client";
     AccountDraft.username := "carol";
     AccountDraft.email := "carol@client.io";
     AccountDraft.authType := pat;
     AccountDraft.sshKeyPath := None;
     AccountDraft.sshHost := None |}.

(** Two readings of the clock and of the random source in the same
    millisecond, whose random texts part only after eleven characters. *)
Definition reading1 : Entropy :=
  {| now := 1700000000000; random36 := "0.4fzyo82mvyr" |}.
Definition reading2 : Entropy :=
  {| now := 1700000000000; random36 := "0.4fzyo82mvk07" |}.

(** A later reading. *)
Definition reading3 : Entropy :=
  {| now := 1700000123456; random36 := "0.9x8a7b6c5d4e" |}.

Definition emptyRegistry : Registry :=
  {| accounts := []; globalState_accounts := []; secretStorage := ∅ |}.

(** An SSH config that already declares the alias of [work] twice. *)
Definition declaredTwice : FileSystem :=
  {| files :=
       {[ "/home/alice/.ssh/config" :=
            "Host github.com-work" +:+ String JSON.LF
            "    HostName github.com" +:+ String JSON.LF
            "Host github.com-work" +:+ String JSON.LF
            "    IdentityFile ~/.ssh/id_old" +:+ String JSON.LF EmptyString ]};
     dirs := {[ "/home/alice/.ssh" ]} |}.

(** An SSH config that declares a longer alias only. *)
Definition declaresLonger : FileSystem :=
  {| files :=
       {[ "/home/alice/.ssh/config" :=
            "Host github.com-work2" +:+ String JSON.LF
            "    HostName github.com" +:+ String JSON.LF EmptyString ]};
     dirs := {[ "/home/alice/.ssh" ]} |}.

Definition sshConfigText (fs : FileSystem) : string :=
  default EmptyString (readFileSync fs "/home/alice/.ssh/config").

(** Repositories with the given remotes and no identity set. *)
Definition reposOf (remotes : gmap string string) : Repos :=
  {| remoteUrls := remotes; userNames := ∅; userEmails := ∅ |}.

(** A repository file whose id names no account and whose name is the
    number 42: the text [{"accountId": "account_1_gone", "accountName": 42}]. *)
Definition fileNamesNumber : FileSystem :=
  {| files :=
       {[ "/home/alice/project/.gitaccount" :=
            "{" +:+ JSON.quote "accountId" +:+ ": " +:+
            JSON.quote "account_1_gone" +:+ ", " +:+
            JSON.quote "accountName" +:+ ": 42}" ]};
     dirs := {[ "/home/alice/project" ]} |}.

End Scenario.

(** ** Shapes of texts, as the specification words them *)

(** [url] is the SSH shorthand [git@host:path]: a host that is not empty
    and holds no colon, a path that is not empty and is a single line. *)
Definition gitShorthand (url host path : string) : Prop :=
  url = "git@" +:+ host +:+ ":" +:+ path
  ∧ JS.truthy host = true
  ∧ JS.includes host ":" = false
  ∧ JS.truthy path = true
  ∧ Regex.hasLineTerminator path = false.

(** The lines of a text, split at line feeds. *)
Fixpoint splitLines (s : string) : list string :=
  match s with
  | EmptyString => [EmptyString]
  | String c s' =>
      if Ascii.eqb c JSON.LF then EmptyString :: splitLines s'
      else
        match splitLines s' with
        | l :: ls => String c l :: ls
        | [] => [String c EmptyString]
        end
  end.

(** How many lines of an SSH config declare exactly [Host alias]. *)
Definition hostBlocks (alias content : string) : nat :=
  count_occ String.string_dec (splitLines content) ("Host " +:+ alias).

(** A text without a line feed. *)
Definition singleLine (s : string) : Prop :=
  JS.includes s (String JSON.LF EmptyString) = false.

(** ** StatusBarManager (statusBar.ts) *)

(** [new vscode.ThemeColor('statusBarItem.warningBackground')] *)
Inductive ThemeColor := warningBackground.

(** The text and background of the status bar item, and the manager's
    [currentAccountId]. *)
Record StatusBarManager := {
  text : string;
  backgroundColor : option ThemeColor;
  currentAccountId : option string
}.

Definition icon (account : GitAccount.t) : string :=
  if bool_decide (GitAccount.authType account = ssh) then "$(key)" else "$(github)".

(** The three assignments that show an account. *)
Definition showing (account : GitAccount.t) : StatusBarManager :=
  {| text := icon account +:+ " " +:+ GitAccount.name account;
     backgroundColor := None;
     currentAccountId := Some (GitAccount.id account) |}.

Definition getCurrentAccountId (bar : StatusBarManager) : option string :=
  currentAccountId bar.

Definition setAccount (accts : list GitAccount.t) (accountId : string)
    (bar : StatusBarManager) : StatusBarManager :=
  match getAccountById accts accountId with
  | Some account => showing account
  | None => bar
  end.

Section StatusBar.
Context `{Platform}.

(** [refresh()], for the first workspace folder's path if there is one:
    the status bar it leaves when it returns. When it throws, which it
    does before any assignment, the status bar stays as it was. *)
Definition refresh (workspaceFolder : option string) (accts : list GitAccount.t)
    (table : list (string * RepoMapping.t)) (fs : FileSystem)
    (g : gmap string string) : outcome StatusBarManager :=
  match workspaceFolder with
  | None =>
      Ok {| text := "$(github) No Workspace";
            backgroundColor := None;
            currentAccountId := None |}
  | Some fsPath =>
      (* Try to detect account for current repo *)
      match detectAccountForRepo accts table fs g fsPath with
      | Throw message => Throw message
      | Ok detected =>
          body
            (match detected with
             | Some detectedAccountId =>
                 if JS.truthy detectedAccountId then
                   match getAccountById accts detectedAccountId with
                   | Some account => Return (showing account)
                   | None => Next
                   end
                 else Next
             | None => Next
             end)
            (* No account configured *)
            {| text := "$(github) Select Account";
               backgroundColor := Some warningBackground;
               currentAccountId := None |}
      end
  end.

End StatusBar.

(** ** Commands (commands.ts) *)

(** Everything the commands work on. *)
Record Services := {
  accountManager : Registry;
  repoMappingService : MappingTable;
  fileSystem : FileSystem;
  repos : Repos;
  statusBarManager : StatusBarManager
}.

Definition setStatusBar (bar : StatusBarManager) (s : Services) : Services :=
  {| accountManager := accountManager s;
     repoMappingService := repoMappingService s;
     fileSystem := fileSystem s;
     repos := repos s;
     statusBarManager := bar |}.

Definition setRepoMappingService (table : MappingTable) (s : Services) : Services :=
  {| accountManager := accountManager s;
     repoMappingService := table;
     fileSystem := fileSystem s;
     repos := repos s;
     statusBarManager := statusBarManager s |}.

Definition setFileSystem (fs : FileSystem) (s : Services) : Services :=
  {| accountManager := accountManager s;
     repoMappingService := repoMappingService s;
     fileSystem := fs;
     repos := repos s;
     statusBarManager := statusBarManager s |}.

Definition setRepos (g : Repos) (s : Services) : Services :=
  {| accountManager := accountManager s;
     repoMappingService := repoMappingService s;
     fileSystem := fileSystem s;
     repos := g;
     statusBarManager := statusBarManager s |}.

Definition setAccountManager (r : Registry) (s : Services) : Services :=
  {| accountManager := r;
     repoMappingService := repoMappingService s;
     fileSystem := fileSystem s;
     repos := repos s;
     statusBarManager := statusBarManager s |}.

(** What a command shows with [showInformationMessage] and
    [showErrorMessage]. *)
Inductive Notice :=
  | Information (message : string)
  | ErrorMessage (message : string).

(** [showInputBox] with a [validateInput]: a value for which it gives a
    message is not accepted, and the box yields [undefined] when it is
    dismissed. [typed] is what the user submits, if anything. *)
Definition inputBox (validateInput : string → option string) (typed : option string)
  : option string :=
  match typed with
  | Some value =>
      match validateInput value with
      | Some _ => None
      | None => Some value
      end
  | None => None
  end.

(** The guard [if (!x) { return; }] on an answer. *)
Definition given (answer : option string) : option string :=
  match answer with
  | Some value => if JS.truthy value then Some value else None
  | None => None
  end.

(** A template literal with a quoted part: [before "quoted" after]. *)
Definition quoted (before inner after : string) : string :=
  before +:+ String JSON.DQ (inner +:+ String JSON.DQ after).

(** The answers of the user to the prompts of the add-account command. *)
Record AddAccountInput := {
  typedName : option string;
  typedUsername : option string;
  typedEmail : option string;
  pickedAuthType : option AuthType;
  typedSshKeyPath : option string;
  typedSshHost : option string;
  typedPat : option string
}.

Inductive SwitchPick :=
  | PickAccount (index : nat)
  | PickAddNew.

Inductive SaveOption := settings | file.

Section Commands.
Context `{Platform} `{Shell}.

Definition validateRequired (message value : string) : option string :=
  if negb (JS.truthy (trim value)) then Some message else None.

Definition validateEmail (value : string) : option string :=
  if negb (JS.truthy (trim value)) then Some "Email is required"
  else if negb (JS.includes value "@") then Some "Please enter a valid email"
  else None.

(** [addAccountCommand] from its [try] on. [os] is what the operating
    system answers to the writes of [addSSHConfigEntry]; [${error}] of
    the [catch] is the text of the error thrown. *)
Definition createAccount (name username email : string) (authType : AuthType)
    (sshKeyPath sshHost token : option string) (e : Entropy) (os : Writes)
    (r : Registry) (fs : FileSystem) : Registry * FileSystem * list Notice :=
  let added :=
    addAccount e
      {| AccountDraft.name := name;
         AccountDraft.username := username;
         AccountDraft.email := email;
         AccountDraft.authType := authType;
         AccountDraft.sshKeyPath := sshKeyPath;
         AccountDraft.sshHost := sshHost |}
      token r in
  let account := snd added in
  (* Add SSH config entry if needed *)
  let '(fs, entered) :=
    if bool_decide (authType = ssh) && JS.truthy_opt sshHost
    then addSSHConfigEntry_under os account fs else (fs, Ok ()) in
  match entered with
  | Ok _ =>
      (fst added, fs, [Information (quoted "Account " name " added successfully!")])
  | Throw error =>
      (fst added, fs, [ErrorMessage ("Failed to add account: " +:+ error)])
  end.

Definition addAccountCommand (input : AddAccountInput) (e : Entropy)
    (os : Writes) (r : Registry) (fs : FileSystem)
  : Registry * FileSystem * list Notice :=
  (* Step 1: Account name *)
  match given (inputBox (validateName (accounts r)) (typedName input)) with
  | None => (r, fs, [])
  | Some name =>
  (* Step 2: GitHub username *)
  match given (inputBox (validateRequired "Username is required")
                 (typedUsername input)) with
  | None => (r, fs, [])
  | Some username =>
  (* Step 3: Git email *)
  match given (inputBox validateEmail (typedEmail input)) with
  | None => (r, fs, [])
  | Some email =>
  (* Step 4: Authentication type *)
  match pickedAuthType input with
  | None => (r, fs, [])
  | Some ssh =>
      match given (inputBox (validateRequired "SSH key path is required")
                     (typedSshKeyPath input)) with
      | None => (r, fs, [])
      | Some sshKeyPath =>
          match given (typedSshHost input) with
          | None => (r, fs, [])
          | Some sshHost =>
              createAccount name username email ssh
                (Some sshKeyPath) (Some sshHost) None e os r fs
          end
      end
  | Some pat =>
      match given (inputBox (validateRequired "Token is required")
                     (typedPat input)) with
      | None => (r, fs, [])
      | Some token =>
          createAccount name username email pat None None (Some token) e os r fs
      end
  end end end end.

(** [picked] is the index of the item chosen in the quick pick over
    [getAccounts()], [confirm] the button of the modal warning. *)
Definition removeAccountCommand (picked : option nat) (confirm : option string)
    (r : Registry) : Registry * list Notice :=
  let accts := getAccounts r in
  match accts with
  | [] => (r, [Information "No accounts configured yet."])
  | _ :: _ =>
      match picked ≫= (λ index, accts !! index) with
      | None => (r, [])
      | Some account =>
          if bool_decide (confirm = Some "Remove") then
            (fst (removeAccount (GitAccount.id account) r),
             [Information (quoted "Account " (GitAccount.name account) " removed.")])
          else (r, [])
      end
  end.

(** [await statusBarManager.refresh()] at the end of a registered
    command: the services afterwards, and whether the command returns or
    rejects. *)
Definition thenRefresh (workspaceFolder : option string) (s : Services)
  : Services * outcome unit :=
  match refresh workspaceFolder (accounts (accountManager s))
          (mappings (repoMappingService s)) (fileSystem s)
          (remoteUrls (repos s)) with
  | Ok bar => (setStatusBar bar s, Ok ())
  | Throw message => (s, Throw message)
  end.

(** The command [gitManager.addAccount] as registered: the command, then
    a refresh of the status bar. *)
Definition gitManager_addAccount (workspaceFolder : option string)
    (input : AddAccountInput) (e : Entropy) (os : Writes) (s : Services)
  : Services * list Notice * outcome unit :=
  let '(r, fs, notices) :=
    addAccountCommand input e os (accountManager s) (fileSystem s) in
  let '(s, refreshed) :=
    thenRefresh workspaceFolder (setFileSystem fs (setAccountManager r s)) in
  (s, notices, refreshed).

Definition gitManager_removeAccount (workspaceFolder : option string)
    (picked : option nat) (confirm : option string) (s : Services)
  : Services * list Notice * outcome unit :=
  let '(r, notices) := removeAccountCommand picked confirm (accountManager s) in
  let '(s, refreshed) := thenRefresh workspaceFolder (setAccountManager r s) in
  (s, notices, refreshed).

(** [switchAccountCommand] from its [try] on; [${error}] of the [catch]
    is [Error: ] and the message, the errors of [execGit] being [Error]
    objects. *)
Definition switchTo (account : GitAccount.t) (fsPath : string) (s : Services)
  : Services * list Notice :=
  (* Update git config *)
  let '(g, configured) :=
    setUserConfig (Some fsPath) (GitAccount.username account)
      (GitAccount.email account) fsPath (repos s) in
  (* Configure SSH if applicable *)
  let '(g, configured) :=
    match configured with
    | Throw message => (g, Throw message)
    | Ok _ =>
        if bool_decide (GitAccount.authType account = ssh)
        then configureSSHForAccount (Some fsPath) account fsPath g
        else (g, Ok ())
    end in
  match configured with
  | Throw message =>
      (setRepos g s,
       [ErrorMessage ("Failed to switch account: Error: " +:+ message)])
  | Ok _ =>
      (* Save mapping *)
      let table :=
        setMapping fsPath (GitAccount.id account) None (repoMappingService s) in
      (* Update status bar *)
      let bar :=
        setAccount (accounts (accountManager s)) (GitAccount.id account)
          (statusBarManager s) in
      (setStatusBar bar (setRepoMappingService table (setRepos g s)),
       [Information
          (quoted "Switched to account " (GitAccount.name account) EmptyString)])
  end.

(** [action] is the button chosen when no account is configured, [pick]
    the item chosen in the quick pick; the answers in [input] and [os]
    are used when the command hands over to [gitManager.addAccount]. *)
Definition switchAccountCommand (workspaceFolder : option string)
    (action : option string) (pick : option SwitchPick)
    (input : AddAccountInput) (e : Entropy) (os : Writes) (s : Services)
  : Services * list Notice * outcome unit :=
  let accts := getAccounts (accountManager s) in
  match accts with
  | [] =>
      let asked :=
        Information "No accounts configured. Would you like to add one?" in
      if bool_decide (action = Some "Add Account") then
        let '(s', notices, added) :=
          gitManager_addAccount workspaceFolder input e os s in
        (s', asked :: notices, added)
      else (s, [asked], Ok ())
  | _ :: _ =>
      match workspaceFolder with
      | None => (s, [ErrorMessage "No workspace folder open."], Ok ())
      | Some fsPath =>
          match pick with
          | None => (s, [], Ok ())
          | Some PickAddNew => gitManager_addAccount workspaceFolder input e os s
          | Some (PickAccount index) =>
              match accts !! index with
              | None => (s, [], Ok ())
              | Some account => (switchTo account fsPath s, Ok ())
              end
          end
      end
  end.

(** [configureRepoCommand]: it has no [try], so an error of
    [writeGitAccountFile] is its own. [os] is what the operating system
    answers to the write. *)
Definition configureRepoCommand (workspaceFolder : option string)
    (picked : option nat) (saveOption : option SaveOption) (os : Writes)
    (s : Services) : outcome (Services * list Notice) :=
  match workspaceFolder with
  | None => Ok (s, [ErrorMessage "No workspace folder open."])
  | Some fsPath =>
      let accts := getAccounts (accountManager s) in
      match accts with
      | [] => Ok (s, [Information "No accounts configured yet."])
      | _ :: _ =>
          match picked ≫= (λ index, accts !! index) with
          | None => Ok (s, [])
          | Some account =>
              match saveOption with
              | None => Ok (s, [])
              | Some file =>
                  match writeGitAccountFile_under os (accounts (accountManager s))
                          (fileSystem s) fsPath (GitAccount.id account) with
                  | Throw message => Throw message
                  | Ok fs =>
                      Ok (setFileSystem fs s,
                          [Information "Created .gitaccount file in repository."])
                  end
              | Some settings =>
                  Ok (setRepoMappingService
                        (setMapping fsPath (GitAccount.id account) None
                           (repoMappingService s)) s,
                      [Information "Account preference saved to VS Code settings."])
              end
          end
      end
  end.

(** The command [gitManager.configureRepo] as registered. *)
Definition gitManager_configureRepo (workspaceFolder : option string)
    (picked : option nat) (saveOption : option SaveOption) (os : Writes)
    (s : Services) : Services * list Notice * outcome unit :=
  match configureRepoCommand workspaceFolder picked saveOption os s with
  | Throw message => (s, [], Throw message)
  | Ok (s', notices) =>
      let '(s', refreshed) := thenRefresh workspaceFolder s' in
      (s', notices, refreshed)
  end.

End Commands.

(** ** Invariants of the data model *)

Section Invariants.
Context `{Platform}.

(** No two accounts bear the same name up to letter case. *)
Definition uniqueNames (l : list GitAccount.t) : Prop :=
  NoDup ((λ acc, toLowerCase (GitAccount.name acc)) <$> l).

End Invariants.

(** No two accounts have the same id. *)
Definition uniqueIds (l : list GitAccount.t) : Prop :=
  NoDup (GitAccount.id <$> l).

(** A [Map] holds a key once. *)
Definition uniqueKeys {V} (m : list (string * V)) : Prop :=
  NoDup (fst <$> m).

(** The in-memory array is the persisted one. *)
Definition persisted (r : Registry) : Prop :=
  globalState_accounts r = accounts r.

(** ** A session

    The services as a session on the scenario's repository has them, and
    answers to the prompts of the add-account command. *)

Module Session.

Definition services : Services :=
  {| accountManager := Scenario.registry;
     repoMappingService :=
       {| mappings := Scenario.directToPersonal;
          globalState_mappings := Scenario.directToPersonal |};
     fileSystem := Scenario.noFiles;
     repos :=
       {| remoteUrls := Scenario.originAlice;
          userNames := ∅;
          userEmails := ∅ |};
     statusBarManager := showing Scenario.personal |}.

Definition answersClient : AddAccountInput :=
  {| typedName := Some "Client";
     typedUsername := Some "carol";
     typedEmail := Some "carol@client.io";
     pickedAuthType := Some ssh;
     typedSshKeyPath := Some "~/.ssh/id_client";
     typedSshHost := Some "github.com-client";
     typedPat := None |}.

End Session.

(** * Properties *)

(** ** Strings *)

Lemma app_cons_s (x : ascii) (a b : string) :
  String x a +:+ b = String x (a +:+ b).
Proof. reflexivity. Qed.

Lemma app_nil_l_s (a : string) : EmptyString +:+ a = a.
Proof. reflexivity. Qed.

Lemma app_assoc_s (a b c : string) : (a +:+ b) +:+ c = a +:+ (b +:+ c).
Proof.
  induction a as [|x a IH]; [done|]. by rewrite !app_cons_s, IH.
Qed.

Lemma app_nil_r_s (a : string) : a +:+ EmptyString = a.
Proof. induction a as [|x a IH]; [done|]. by rewrite app_cons_s, IH. Qed.

(** Appends re-associated to the right, literal prefixes pushed inside. *)
Ltac norm_app :=
  repeat (rewrite ?app_assoc_s, ?app_cons_s, ?app_nil_l_s, ?app_nil_r_s).

Lemma truthy_true (s : string) : JS.truthy s = true ↔ s ≠ EmptyString.
Proof. destruct s; cbn; split; congruence. Qed.

Lemma truthy_false (s : string) : JS.truthy s = false ↔ s = EmptyString.
Proof. destruct s; cbn; split; congruence. Qed.

Lemma truthy_app_l (a b : string) : JS.truthy a = true → JS.truthy (a +:+ b) = true.
Proof. by destruct a. Qed.

Lemma startsWith_spec (s p : string) :
  JS.startsWith s p = true ↔ ∃ r, s = p +:+ r.
Proof.
  revert s. induction p as [|b p IH]; intros s; cbn.
  - split; [by exists s|done].
  - destruct s as [|a s].
    + split; [done|]. by intros [r Hr].
    + destruct (Ascii.eqb_spec a b) as [->|Hne].
      * rewrite IH. split; intros [r Hr]; exists r; [by rewrite Hr|].
        rewrite app_cons_s in Hr. congruence.
      * split; [done|]. intros [r Hr]. rewrite app_cons_s in Hr. congruence.
Qed.

Lemma startsWith_app (p r : string) : JS.startsWith (p +:+ r) p = true.
Proof. apply startsWith_spec. by exists r. Qed.

Lemma includes_unfold (s p : string) :
  JS.includes s p =
  JS.startsWith s p ||
  match s with EmptyString => false | String _ s' => JS.includes s' p end.
Proof. by destruct s. Qed.

Lemma includes_spec (s p : string) :
  JS.includes s p = true ↔ ∃ a b, s = a +:+ p +:+ b.
Proof.
  induction s as [|x s IH]; rewrite includes_unfold, orb_true_iff, startsWith_spec.
  - split.
    + intros [[r Hr]|?]; [|done]. by exists EmptyString, r.
    + intros ([|y a] & b & Hab); [left; by exists b|done].
  - rewrite IH. split.
    + intros [[r Hr]|(a & b & Hab)].
      * by exists EmptyString, r.
      * exists (String x a), b. by rewrite Hab.
    + intros ([|y a] & b & Hab).
      * left. by exists b.
      * right. exists a, b. rewrite app_cons_s in Hab. congruence.
Qed.

Lemma includes_middle (a p b : string) : JS.includes (a +:+ p +:+ b) p = true.
Proof. apply includes_spec. by exists a, b. Qed.

Lemma includes_refl (s : string) : JS.includes s s = true.
Proof. apply includes_spec. exists EmptyString, EmptyString. by norm_app. Qed.

Lemma includes_app_l (s t p : string) :
  JS.includes s p = true → JS.includes (s +:+ t) p = true.
Proof.
  rewrite !includes_spec. intros (a & b & ->). exists a, (b +:+ t).
  by rewrite !app_assoc_s.
Qed.

Lemma includes_app_r (s t p : string) :
  JS.includes t p = true → JS.includes (s +:+ t) p = true.
Proof.
  rewrite !includes_spec. intros (a & b & ->). exists (s +:+ a), b.
  by rewrite !app_assoc_s.
Qed.

(** ** Lookups in the account array *)

Lemma hasId_true (i : string) (acc : GitAccount.t) :
  hasId i acc = true ↔ GitAccount.id acc = i.
Proof. unfold hasId. by rewrite bool_decide_eq_true. Qed.

Lemma getAccountById_id (l : list GitAccount.t) (i : string) (acc : GitAccount.t) :
  getAccountById l i = Some acc → GitAccount.id acc = i.
Proof. intros Hf. apply find_some in Hf as [_ Hid]. by apply hasId_true. Qed.

Lemma getAccountById_In (l : list GitAccount.t) (i : string) (acc : GitAccount.t) :
  getAccountById l i = Some acc → In acc l.
Proof. intros Hf. by apply find_some in Hf as [? _]. Qed.

Lemma getAccountById_None (l : list GitAccount.t) (i : string) :
  getAccountById l i = None ↔ ∀ acc, In acc l → GitAccount.id acc ≠ i.
Proof.
  unfold getAccountById. split.
  - intros Hf acc Hin Hid. pose proof (find_none _ _ Hf acc Hin) as Hn.
    apply hasId_true in Hid. congruence.
  - intros Hall. destruct (find _ l) as [acc|] eqn:Hf; [|done].
    apply find_some in Hf as [Hin Hid]. apply hasId_true in Hid.
    by destruct (Hall acc Hin).
Qed.

Lemma lookup_unique_id (l : list GitAccount.t) (n : nat) (acc : GitAccount.t) :
  uniqueIds l → l !! n = Some acc →
  findIndex (hasId (GitAccount.id acc)) l = Some n
  ∧ getAccountById l (GitAccount.id acc) = Some acc.
Proof.
  unfold uniqueIds, getAccountById. revert n.
  induction l as [|x l IH]; intros n Hnd Hl; [done|].
  rewrite fmap_cons in Hnd. apply NoDup_cons in Hnd as [Hx Hnd].
  destruct n as [|n]; cbn in Hl.
  - injection Hl as ->. cbn. unfold hasId at 1 3.
    by rewrite !bool_decide_eq_true_2 by done.
  - cbn. assert (Hne : hasId (GitAccount.id acc) x = false).
    { unfold hasId. apply bool_decide_eq_false_2. intros Heq. apply Hx.
      rewrite Heq. apply list_elem_of_fmap. exists acc.
      split; [done|]. by eapply list_elem_of_lookup_2. }
    rewrite Hne. by destruct (IH n Hnd Hl) as [-> ->].
Qed.

(** ** Detection *)

Section Detection.
Context `{Platform}.

(** The loop returns at the first entry whose pattern matches. *)
Lemma scanRemotePatterns_find (remoteUrl : string)
    (table : list (string * RepoMapping.t)) :
  scanRemotePatterns remoteUrl table =
  match List.find (λ entry, patternMatches remoteUrl (snd entry)) table with
  | Some entry => Return (Some (RepoMapping.accountId (snd entry)))
  | None => Next
  end.
Proof.
  induction table as [|[k m] table IH]; [done|].
  cbn. unfold patternMatches at 1.
  destruct (RepoMapping.remotePattern m) as [p|]; [|exact IH].
  destruct (JS.truthy p && JS.includes remoteUrl p); [done|exact IH].
Qed.

(** Strategies two and three, as the body runs them. *)
Lemma detect_rest (table : list (string * RepoMapping.t))
    (g : gmap string string) (repoPath : string) :
  body (match getRemoteUrl g repoPath with
        | Some remoteUrl =>
            if JS.truthy remoteUrl
            then scanRemotePatterns remoteUrl table else Next
        | None => Next
        end ;>
        match Map_get table repoPath with
        | Some directMapping =>
            Return (Some (RepoMapping.accountId directMapping))
        | None => Next
        end) None =
  Ok (firstMatch [remotePatternMapping table g repoPath;
                  directPathMapping table repoPath]).
Proof.
  unfold remotePatternMapping, directPathMapping.
  destruct (getRemoteUrl g repoPath) as [url|]; cbn.
  - destruct (JS.truthy url); cbn.
    + rewrite scanRemotePatterns_find.
      destruct (find _ table); cbn; [done|].
      by destruct (Map_get table repoPath).
    + by destruct (Map_get table repoPath).
  - by destruct (Map_get table repoPath).
Qed.

(** The body of [detectAccountForRepo] is the chain of the three
    strategies, but for a name in the repository file that is not a
    string: comparing it throws. *)
Lemma detect_chain (accts : list GitAccount.t)
    (table : list (string * RepoMapping.t)) (fs : FileSystem)
    (g : gmap string string) (repoPath : string) :
  detectAccountForRepo accts table fs g repoPath =
  if untypedName accts fs repoPath
  then Throw "TypeError: name.toLowerCase is not a function"
  else Ok (firstMatch [fileOverride accts fs repoPath;
                       remotePatternMapping table g repoPath;
                       directPathMapping table repoPath]).
Proof.
  pose proof (detect_rest table g repoPath) as Hrest.
  unfold detectAccountForRepo, fileOverride, untypedName.
  destruct (readGitAccountFile fs repoPath) as [[oi on]|]; cbn -[firstMatch];
    [|exact Hrest].
  assert (Hname :
    ∀ first : flow (option string), first = Next →
    body ((first ;>
           match on with
           | Some accountName =>
               if JS.truthy_value accountName then
                 match getAccountByName_value accts accountName with
                 | Ok (Some account) => Return (Some (GitAccount.id account))
                 | Ok None => Next
                 | Throw message => Raise message
                 end
               else Next
           | None => Next
           end) ;>
          match getRemoteUrl g repoPath with
          | Some remoteUrl =>
              if JS.truthy remoteUrl
              then scanRemotePatterns remoteUrl table else Next
          | None => Next
          end ;>
          match Map_get table repoPath with
          | Some directMapping =>
              Return (Some (RepoMapping.accountId directMapping))
          | None => Next
          end) None =
    if match on, accts with
       | Some (JS.NotString true), _ :: _ => true
       | _, _ => false
       end
    then Throw "TypeError: name.toLowerCase is not a function"
    else Ok (firstMatch
               [GitAccount.id <$>
                  match on with
                  | Some (JS.Str n) =>
                      if JS.truthy n then getAccountByName accts n else None
                  | _ => None
                  end;
                remotePatternMapping table g repoPath;
                directPathMapping table repoPath])).
  { intros first ->. cbn -[firstMatch].
    destruct on as [[n|[|]]|]; cbn -[firstMatch]; try exact Hrest.
    - destruct (JS.truthy n); cbn -[firstMatch]; [|exact Hrest].
      destruct (getAccountByName accts n); cbn -[firstMatch]; [done|exact Hrest].
    - destruct accts; cbn -[firstMatch]; [exact Hrest|done]. }
  destruct oi as [[i|b]|].
  - cbn -[firstMatch andThen body]. destruct (JS.truthy i).
    + destruct (getAccountById accts i) as [a|] eqn:Ha.
      * cbn -[firstMatch]. by destruct on as [[|[|]]|], accts.
      * rewrite Hname by done. cbn -[firstMatch].
        by destruct on as [[|[|]]|], accts.
    + rewrite Hname by done. by destruct on as [[|[|]]|], accts.
  - cbn -[firstMatch andThen body].
    destruct b; rewrite Hname by done; cbn -[firstMatch];
      by destruct on as [[|[|]]|], accts.
  - rewrite Hname by done. by destruct on as [[|[|]]|], accts.
Qed.

Lemma typedFile_untypedName (accts : list GitAccount.t) (fs : FileSystem)
    (repoPath : string) :
  typedFile fs repoPath = true → untypedName accts fs repoPath = false.
Proof.
  unfold typedFile, untypedName, FileConfig.typed.
  destruct (readGitAccountFile fs repoPath) as [[oi on]|]; [|done]. cbn.
  by destruct oi as [[|]|], on as [[|[|]]|], accts.
Qed.

(** C1. For a repository file whose name, when the code comes to compare
    it, is a string (as it is whenever the file has the properties its
    interface declares), [detectAccountForRepo] tries the repository
    file, then the remote patterns, then the direct mapping, and the
    first strategy that yields an account decides: a file that resolves
    wins whatever the mappings say, a pattern match wins over the direct
    mapping, and the result is absent only when all three are. For a
    file whose id resolves nothing and whose name is a truthy value that
    is not a string, the file names no account, yet the code does not go
    on to the mappings: with an account in the registry it throws. *)
Theorem detect_strategy_order (accts : list GitAccount.t)
    (table : list (string * RepoMapping.t)) (fs : FileSystem)
    (g : gmap string string) (repoPath : string) :
  (typedFile fs repoPath = true → untypedName accts fs repoPath = false)
  ∧ (untypedName accts fs repoPath = false →
     detectAccountForRepo accts table fs g repoPath =
       Ok (firstMatch [fileOverride accts fs repoPath;
                       remotePatternMapping table g repoPath;
                       directPathMapping table repoPath])
     ∧ (∀ a, fileOverride accts fs repoPath = Some a →
             detectAccountForRepo accts table fs g repoPath = Ok (Some a))
     ∧ (∀ a, fileOverride accts fs repoPath = None →
             remotePatternMapping table g repoPath = Some a →
             detectAccountForRepo accts table fs g repoPath = Ok (Some a))
     ∧ (fileOverride accts fs repoPath = None →
        remotePatternMapping table g repoPath = None →
        detectAccountForRepo accts table fs g repoPath =
          Ok (directPathMapping table repoPath))
     ∧ (detectAccountForRepo accts table fs g repoPath = Ok None ↔
        fileOverride accts fs repoPath = None
        ∧ remotePatternMapping table g repoPath = None
        ∧ directPathMapping table repoPath = None))
  ∧ (untypedName accts fs repoPath = true →
     fileOverride accts fs repoPath = None
     ∧ detectAccountForRepo accts table fs g repoPath =
         Throw "TypeError: name.toLowerCase is not a function").
Proof.
  split; [apply typedFile_untypedName|]. rewrite detect_chain. split.
  - intros ->.
    destruct (fileOverride accts fs repoPath) as [a|];
      destruct (remotePatternMapping table g repoPath) as [b|];
      destruct (directPathMapping table repoPath) as [c|]; cbn;
      repeat split; intros; destruct_and?; congruence.
  - intros Hthrows. rewrite Hthrows. split; [|done].
    revert Hthrows. unfold untypedName, fileOverride.
    destruct (readGitAccountFile fs repoPath) as [[oi on]|]; [|done]. cbn.
    destruct on as [[|[|]]|]; try done. destruct accts as [|a l]; [done|].
    destruct oi as [[i|b]|]; cbn -[getAccountById]; try done.
    destruct (JS.truthy i); [|done]. cbn -[getAccountById].
    destruct (getAccountById (a :: l) i); [|done].
    by rewrite bool_decide_eq_true_2 by by eexists.
Qed.

(** C10. When the file's [accountId] names no account, its
    [accountName] is tried next: if it is a string that resolves, that
    account's id is the result; if it is a string that resolves no
    account, or is falsy or absent, the result is that of the persisted
    mappings. If it is a truthy value that is not a string, neither
    field resolves, yet the code does not go on to the persisted
    mappings: with an account in the registry it throws. *)
Theorem detect_name_fallback (accts : list GitAccount.t)
    (table : list (string * RepoMapping.t)) (fs : FileSystem)
    (g : gmap string string) (repoPath : string)
    (config : FileConfig.t) (i : JS.value) :
  readGitAccountFile fs repoPath = Some config →
  FileConfig.accountId config = Some i →
  getAccountById_value accts i = None →
  (∀ n acc, FileConfig.accountName config = Some (JS.Str n) →
            JS.truthy n = true →
            getAccountByName accts n = Some acc →
            detectAccountForRepo accts table fs g repoPath =
              Ok (Some (GitAccount.id acc)))
  ∧ (FileConfig.accountName config ≠ Some (JS.NotString true) →
     (∀ n, FileConfig.accountName config = Some (JS.Str n) →
           JS.truthy n = true → getAccountByName accts n = None) →
     detectAccountForRepo accts table fs g repoPath =
       Ok (persistedMappings table g repoPath))
  ∧ (FileConfig.accountName config = Some (JS.NotString true) →
     accts ≠ [] →
     fileOverride accts fs repoPath = None
     ∧ detectAccountForRepo accts table fs g repoPath =
         Throw "TypeError: name.toLowerCase is not a function").
Proof.
  intros Hread Hid Hnone. rewrite detect_chain.
  unfold fileOverride, persistedMappings, untypedName.
  rewrite Hread, Hid, Hnone.
  assert (Hbool : bool_decide (is_Some (@None GitAccount.t)) = false)
    by (apply bool_decide_eq_false_2; by intros [? ?]).
  rewrite Hbool, andb_false_r. cbn [negb].
  assert (HbyId :
    match i with
    | JS.Str i => if JS.truthy i then getAccountById accts i else None
    | JS.NotString _ => None
    end = None).
  { destruct i as [i|b]; [|done]. cbn in Hnone. rewrite Hnone.
    by destruct (JS.truthy i). }
  rewrite HbyId. split; [|split].
  - intros n acc -> Hn Hacc. by rewrite Hn, Hacc.
  - intros Htyped Hname.
    destruct (FileConfig.accountName config) as [[n|[|]]|]; try done.
    destruct (JS.truthy n) eqn:Hn; [|done].
    by rewrite (Hname n eq_refl Hn).
  - intros -> Hne. by destruct accts.
Qed.

End Detection.

(** ** The repository account file *)

Lemma generateId_truthy (e : Entropy) : JS.truthy (generateId e) = true.
Proof. reflexivity. Qed.

Lemma stringify_configOf (account : GitAccount.t) :
  JSON.stringify (configOf account) =
  String "{" (String JSON.LF EmptyString) +:+
  "  " +:+ JSON.quote "accountId" +:+ ": " +:+
  JSON.quote (GitAccount.id account) +:+
  String "," (String JSON.LF EmptyString) +:+
  "  " +:+ JSON.quote "accountName" +:+ ": " +:+
  JSON.quote (GitAccount.name account) +:+
  String JSON.LF "}".
Proof.
  unfold JSON.stringify, configOf, JSON.member; cbn [GitAccountConfig.accountId
    GitAccountConfig.accountName app JSON.joinLines].
  by norm_app.
Qed.

Section RepoAccountFile.
Context `{Platform}.

Lemma read_after_write (fs : FileSystem) (repoPath content : string) :
  readGitAccountFile (writeFileSync fs (gitAccountPath repoPath) content) repoPath
  = JSON_parse content.
Proof.
  unfold readGitAccountFile, existsSync, readFileSync, writeFileSync; cbn.
  rewrite lookup_insert_eq. by rewrite bool_decide_eq_true_2.
Qed.

(** The first account with an id, when the registry has one with it. *)
Lemma getAccountById_elem (l : list GitAccount.t) (acc : GitAccount.t) :
  acc ∈ l →
  ∃ account, getAccountById l (GitAccount.id acc) = Some account
             ∧ account ∈ l ∧ GitAccount.id account = GitAccount.id acc.
Proof.
  intros Hin%list_elem_of_In.
  destruct (getAccountById l (GitAccount.id acc)) as [account|] eqn:Hf.
  - exists account. split; [done|].
    split; [by eapply list_elem_of_In, getAccountById_In
           |by eapply getAccountById_id].
  - by destruct (proj1 (getAccountById_None _ _) Hf acc Hin).
Qed.

(** C7. Writing the repository file for an id that no account of the
    registry has throws [Account not found] and yields no file system;
    for the id of an account of the registry it replaces the text at
    [<repoPath>/.gitaccount] by the JSON object of the id and of the
    name of an account of the registry that has this id (the account
    itself when ids are pairwise distinct), and touches nothing else. *)
Theorem writeGitAccountFile_spec (accts : list GitAccount.t) (fs : FileSystem)
    (repoPath accountId : string) :
  ((∀ acc, acc ∈ accts → GitAccount.id acc ≠ accountId) →
   writeGitAccountFile accts fs repoPath accountId = Throw "Account not found")
  ∧ (∀ acc, acc ∈ accts → GitAccount.id acc = accountId →
     ∃ account fs' content,
       account ∈ accts
       ∧ GitAccount.id account = accountId
       ∧ (uniqueIds accts → account = acc)
       ∧ writeGitAccountFile accts fs repoPath accountId = Ok fs'
       ∧ readFileSync fs' (gitAccountPath repoPath) = Some content
       ∧ content =
           JSON.stringify
             {| GitAccountConfig.accountId := Some accountId;
                GitAccountConfig.accountName := Some (GitAccount.name account) |}
       ∧ JS.includes content (JSON.quote accountId) = true
       ∧ JS.includes content (JSON.quote (GitAccount.name account)) = true
       ∧ (∀ p, p ≠ gitAccountPath repoPath →
               readFileSync fs' p = readFileSync fs p)
       ∧ dirs fs' = dirs fs).
Proof.
  unfold writeGitAccountFile. split.
  - intros Hnone.
    assert (getAccountById accts accountId = None) as ->; [|done].
    apply getAccountById_None. intros acc Hin. by apply Hnone, list_elem_of_In.
  - intros acc Hin <-.
    destruct (getAccountById_elem _ _ Hin) as (account & Hacc & Hin' & Hid).
    rewrite Hacc. exists account. eexists _, _.
    split; [done|]. split; [done|].
    split.
    { intros Hnd. apply list_elem_of_lookup in Hin as [n Hn].
      destruct (lookup_unique_id _ _ _ Hnd Hn) as [_ Hf]. congruence. }
    split; [reflexivity|].
    split; [apply lookup_insert_eq|].
    split; [unfold configOf; by rewrite Hid|].
    rewrite stringify_configOf, Hid. repeat split.
    + do 4 apply includes_app_r. apply includes_app_l, includes_refl.
    + do 9 apply includes_app_r. apply includes_app_l, includes_refl.
    + intros p Hp. unfold readFileSync, writeFileSync; cbn.
      by rewrite lookup_insert_ne.
Qed.

(** C6. After [writeGitAccountFile] for the id of an account of the
    registry, [detectAccountForRepo] on the same path returns that id,
    whatever the persisted mappings hold (so also when there are none),
    provided the JSON reader gives back the object that was written. *)
Theorem write_then_detect (accts : list GitAccount.t)
    (table : list (string * RepoMapping.t)) (fs : FileSystem)
    (g : gmap string string) (repoPath i : string) (account : GitAccount.t) :
  getAccountById accts i = Some account →
  JS.truthy i = true →
  JSON_parse (JSON.stringify (configOf account)) =
    Some (FileConfig.ofStrings (configOf account)) →
  ∃ fs', writeGitAccountFile accts fs repoPath i = Ok fs'
         ∧ detectAccountForRepo accts table fs' g repoPath = Ok (Some i).
Proof.
  intros Hacc Hi Hparse. unfold writeGitAccountFile. rewrite Hacc.
  eexists. split; [reflexivity|].
  pose proof (getAccountById_id _ _ _ Hacc) as Hid.
  unfold detectAccountForRepo.
  rewrite read_after_write, Hparse. cbn -[getAccountById].
  rewrite Hid, Hi, Hacc. cbn. by rewrite Hid.
Qed.

End RepoAccountFile.

(** ** The reader of the concrete platform *)

Lemma stringBody_quoteChar (c : ascii) (tail v rest : string) :
  Posix.stringBody tail = Some (v, rest) →
  Posix.stringBody (JSON.quoteChar c +:+ tail) = Some (String c v, rest).
Proof.
  intros Htail.
  destruct c as [[] [] [] [] [] [] [] []];
    match goal with
    | |- context [JSON.quoteChar ?c] =>
        let q := eval vm_compute in (JSON.quoteChar c) in
        change (JSON.quoteChar c) with q
    end;
    rewrite ?app_cons_s, ?app_nil_l_s; simpl; rewrite Htail; reflexivity.
Qed.

Lemma stringBody_quoteBody (s rest : string) :
  Posix.stringBody (JSON.quoteBody s +:+ String JSON.DQ rest) = Some (s, rest).
Proof.
  induction s as [|c s IH]; [reflexivity|].
  cbn [JSON.quoteBody]. rewrite app_assoc_s. by apply stringBody_quoteChar.
Qed.

Lemma stringLiteral_quote (s rest : string) :
  Posix.stringLiteral (JSON.quote s +:+ rest) = Some (s, rest).
Proof.
  unfold JSON.quote. rewrite app_cons_s, app_assoc_s, app_cons_s, app_nil_l_s.
  cbn [Posix.stringLiteral]. rewrite Ascii.eqb_refl. apply stringBody_quoteBody.
Qed.

Lemma skipSpace_quote (s rest : string) :
  Posix.skipSpace (JSON.quote s +:+ rest) = JSON.quote s +:+ rest.
Proof. reflexivity. Qed.

Lemma skipSpace_blank (s : string) :
  Posix.skipSpace (String " " s) = Posix.skipSpace s
  ∧ Posix.skipSpace (String JSON.LF s) = Posix.skipSpace s.
Proof. done. Qed.

Lemma skipSpace_mark (s : string) :
  Posix.skipSpace (String ":" s) = String ":" s
  ∧ Posix.skipSpace (String "," s) = String "," s
  ∧ Posix.skipSpace (String "}" s) = String "}" s
  ∧ Posix.skipSpace (String "{" s) = String "{" s.
Proof. done. Qed.

Ltac skip_space :=
  repeat first
    [ rewrite (proj1 (skipSpace_blank _))
    | rewrite (proj2 (skipSpace_blank _))
    | rewrite skipSpace_quote
    | rewrite (proj1 (skipSpace_mark _))
    | rewrite (proj1 (proj2 (skipSpace_mark _)))
    | rewrite (proj1 (proj2 (proj2 (skipSpace_mark _))))
    | rewrite (proj2 (proj2 (proj2 (skipSpace_mark _)))) ].

Lemma quote_app (s rest : string) :
  JSON.quote s +:+ rest = String JSON.DQ (JSON.quoteBody s +:+ String JSON.DQ rest).
Proof. unfold JSON.quote. by norm_app. Qed.

Lemma scalar_quote (s rest : string) :
  Posix.scalar (JSON.quote s +:+ rest) = Some (JS.Str s, rest).
Proof. unfold Posix.scalar. by rewrite stringLiteral_quote. Qed.

(** The reader gives back the object of every account, as written by
    [JSON.stringify]. *)
Lemma Posix_parse_stringify (account : GitAccount.t) :
  Posix.parse (JSON.stringify (configOf account)) =
    Some (FileConfig.ofStrings (configOf account)).
Proof.
  rewrite stringify_configOf. norm_app. unfold Posix.parse.
  cbn [String.length]. set (n := String.length _).
  skip_space. cbv beta iota. skip_space.
  rewrite quote_app at 1. cbv beta iota. rewrite <- quote_app.
  cbn [Posix.members]. rewrite stringLiteral_quote.
  skip_space. cbv beta iota. skip_space. rewrite scalar_quote.
  skip_space. cbv beta iota. skip_space.
  cbn [Posix.members]. rewrite stringLiteral_quote.
  skip_space. cbv beta iota. skip_space. rewrite scalar_quote.
  skip_space. cbv beta iota.
  reflexivity.
Qed.

(** ** The account registry *)

Lemma findIndex_of_find {A} (p : A → bool) (l : list A) (x : A) :
  List.find p l = Some x → ∃ n, findIndex p l = Some n ∧ l !! n = Some x.
Proof.
  induction l as [|y l IH]; [done|]. cbn.
  destruct (p y).
  - intros [= ->]. by exists 0.
  - intros Hf. destruct (IH Hf) as (n & -> & Hn). by exists (S n).
Qed.

Lemma findIndex_None {A} (p : A → bool) (l : list A) :
  List.find p l = None → findIndex p l = None.
Proof.
  induction l as [|y l IH]; [done|]. cbn.
  destruct (p y); [done|]. intros Hf. by rewrite (IH Hf).
Qed.

Lemma removeAccount_found (i : string) (r : Registry) (acc : GitAccount.t) :
  getAccountById (accounts r) i = Some acc →
  ∃ n, findIndex (hasId i) (accounts r) = Some n
       ∧ accounts r !! n = Some acc
       ∧ removeAccount i r =
         ({| accounts := delete n (accounts r);
             globalState_accounts := delete n (accounts r);
             secretStorage :=
               if bool_decide (GitAccount.authType acc = pat)
               then deleteToken i (secretStorage r) else secretStorage r |},
          true).
Proof.
  intros Hf. destruct (findIndex_of_find _ _ _ Hf) as (n & Hn & Hl).
  exists n. unfold removeAccount. rewrite Hn, Hl.
  split; [done|]. split; [done|]. by case_bool_decide.
Qed.

Lemma removeAccount_missing (i : string) (r : Registry) :
  getAccountById (accounts r) i = None → removeAccount i r = (r, false).
Proof. intros Hf. unfold removeAccount. by rewrite (findIndex_None _ _ Hf). Qed.

(** With pairwise distinct ids, deleting the first account that has id
    [i] leaves none that has it. *)
Lemma delete_first_gone (l : list GitAccount.t) (i : string) (n : nat) :
  NoDup (GitAccount.id <$> l) →
  findIndex (hasId i) l = Some n →
  getAccountById (delete n l) i = None.
Proof.
  revert n. induction l as [|x l IH]; intros n Hnd Hn; [done|].
  rewrite fmap_cons in Hnd. apply NoDup_cons in Hnd as [Hx Hnd].
  cbn in Hn. destruct (hasId i x) eqn:Hix.
  - injection Hn as <-. cbn. apply getAccountById_None. intros acc Hin Hid.
    apply hasId_true in Hix. apply Hx, list_elem_of_fmap.
    exists acc. split; [congruence|]. by apply list_elem_of_In.
  - destruct (findIndex (hasId i) l) as [m|]; [|done].
    injection Hn as <-. cbn. unfold getAccountById. cbn. rewrite Hix.
    by apply IH.
Qed.

(** What removal does on every registry, and on those whose ids are
    pairwise distinct. [removeAccount] answers [true] exactly when some
    account has the id; the token of a removed [pat] account is gone
    from the secret storage, and removing an [ssh] account leaves that
    storage as it was; an id that is not there answers [false] and
    changes nothing. On a registry whose ids are pairwise distinct no
    account has the id afterwards, so that removing it a second time
    answers [false] and changes nothing. *)
Theorem removeAccount_spec (i : string) (r : Registry) :
  (snd (removeAccount i r) = true ↔
     ∃ acc, acc ∈ accounts r ∧ GitAccount.id acc = i)
  ∧ (∀ acc, getAccountById (accounts r) i = Some acc →
       globalState_accounts (fst (removeAccount i r)) =
         accounts (fst (removeAccount i r))
       ∧ (GitAccount.authType acc = pat →
          getToken i (secretStorage (fst (removeAccount i r))) = None)
       ∧ (GitAccount.authType acc = ssh →
          secretStorage (fst (removeAccount i r)) = secretStorage r))
  ∧ (snd (removeAccount i r) = false → fst (removeAccount i r) = r)
  ∧ (NoDup (GitAccount.id <$> accounts r) →
     getAccountById (accounts (fst (removeAccount i r))) i = None
     ∧ removeAccount i (fst (removeAccount i r)) =
         (fst (removeAccount i r), false)).
Proof.
  destruct (getAccountById (accounts r) i) as [acc|] eqn:Hf.
  - destruct (removeAccount_found _ _ _ Hf) as (n & Hn & Hl & ->). cbn.
    split; [|split; [|split; [done|]]].
    + split; [|done]. intros _. exists acc.
      split; [by eapply list_elem_of_lookup_2|by eapply getAccountById_id].
    + intros ? [= <-]. split; [done|split].
      * intros ->. rewrite bool_decide_eq_true_2 by done.
        apply lookup_delete_eq.
      * intros ->. by rewrite bool_decide_eq_false_2.
    + intros Hnd. pose proof (delete_first_gone _ _ _ Hnd Hn) as Hgone.
      split; [done|]. by apply removeAccount_missing.
  - rewrite (removeAccount_missing _ _ Hf). cbn.
    split; [|split; [done|split; [done|]]].
    + split; [done|]. intros (acc & Hin & Hid).
      apply list_elem_of_In in Hin.
      eapply getAccountById_None in Hf; [|exact Hin]. done.
    + intros _. split; [done|]. by apply removeAccount_missing.
Qed.

(** What [addAccount] does to the arrays does not depend on the token. *)
Lemma addAccount_accounts (e : Entropy) (draft : AccountDraft.t)
    (token : option string) (r : Registry) :
  accounts (fst (addAccount e draft token r)) =
    accounts r ++ [withId draft (generateId e)]
  ∧ globalState_accounts (fst (addAccount e draft token r)) =
      accounts r ++ [withId draft (generateId e)]
  ∧ snd (addAccount e draft token r) = withId draft (generateId e).
Proof.
  unfold addAccount. destruct token as [p|]; [|done].
  by destruct (JS.truthy p && bool_decide (AccountDraft.authType draft = pat)).
Qed.

Section AddAccount.
Context `{Platform}.

(** C2 (as the code has it). A name that is empty, or that an account
    of the registry already bears up to letter case, is stopped by the
    name prompt of the add-account command: whatever else the user
    answers, the command returns without calling the registry, and the
    registry, the files and what is shown stay as they are.
    [addAccount] itself checks nothing: for every draft it appends the
    draft under a generated id, persists the array and returns the new
    account. *)
Theorem addAccount_unvalidated (e : Entropy) (draft : AccountDraft.t)
    (token : option string) (r : Registry) :
  AccountDraft.name draft = EmptyString
  ∨ is_Some (getAccountByName (accounts r) (AccountDraft.name draft)) →
  (∀ input os fs,
     typedName input = Some (AccountDraft.name draft) →
     addAccountCommand input e os r fs = (r, fs, []))
  ∧ accounts (fst (addAccount e draft token r)) =
      accounts r ++ [withId draft (generateId e)]
  ∧ globalState_accounts (fst (addAccount e draft token r)) =
      accounts r ++ [withId draft (generateId e)]
  ∧ snd (addAccount e draft token r) = withId draft (generateId e).
Proof.
  intros Hbad. split; [|apply addAccount_accounts].
  intros input os fs Htyped. unfold addAccountCommand. rewrite Htyped.
  assert (given (inputBox (validateName (accounts r))
                   (Some (AccountDraft.name draft))) = None) as ->; [|done].
  unfold inputBox, validateName.
  destruct (negb (JS.truthy (trim (AccountDraft.name draft)))); [done|].
  destruct Hbad as [->|Hdup].
  - by case_bool_decide.
  - by rewrite bool_decide_eq_true_2.
Qed.

End AddAccount.

(** The account arrays after an operation are a function of the account
    arrays before and of the request without its token. *)
Lemma perform_accounts_independent (op1 op2 : RegistryOp) (r1 r2 : Registry) :
  withoutToken op1 = withoutToken op2 →
  accounts r1 = accounts r2 →
  globalState_accounts r1 = globalState_accounts r2 →
  accounts (perform op1 r1) = accounts (perform op2 r2)
  ∧ globalState_accounts (perform op1 r1) = globalState_accounts (perform op2 r2).
Proof.
  intros Hop Ha Hg.
  destruct op1 as [e1 d1 t1|i1|i1 u1], op2 as [e2 d2 t2|i2|i2 u2];
    try discriminate Hop; cbn in Hop.
  - injection Hop as -> ->. cbn [perform].
    destruct (addAccount_accounts e2 d2 t1 r1) as (-> & -> & _).
    destruct (addAccount_accounts e2 d2 t2 r2) as (-> & -> & _).
    by rewrite Ha.
  - injection Hop as ->. cbn. unfold removeAccount. rewrite Ha.
    destruct (findIndex _ _) as [n|]; [|done].
    destruct (accounts r2 !! n) as [acc|]; [|done].
    by case_bool_decide.
  - injection Hop as -> ->. cbn. unfold updateAccount. rewrite Ha.
    by destruct (findIndex _ _).
Qed.

(** C9. No operation of the account manager lets a token, or anything
    the secret storage holds, reach the account arrays: they are the
    same whatever the token and the storage; and a non-empty token given
    with a [pat] draft is put in the secret storage under
    [gitManager.pat.] followed by the new id, and nowhere else. *)
Theorem token_only_in_secretStorage :
  (∀ op1 op2 r1 r2,
     withoutToken op1 = withoutToken op2 →
     accounts r1 = accounts r2 →
     globalState_accounts r1 = globalState_accounts r2 →
     accounts (perform op1 r1) = accounts (perform op2 r2)
     ∧ globalState_accounts (perform op1 r1) =
         globalState_accounts (perform op2 r2))
  ∧ (∀ e draft secret r,
       AccountDraft.authType draft = pat →
       JS.truthy secret = true →
       let key :=
         STORAGE_KEYS.PAT_PREFIX +:+
           GitAccount.id (snd (addAccount e draft (Some secret) r)) in
       secretStorage (fst (addAccount e draft (Some secret) r)) =
         <[key := secret]> (secretStorage r)
       ∧ secretStorage (fst (addAccount e draft (Some secret) r)) !! key =
           Some secret
       ∧ (∀ k, k ≠ key →
            secretStorage (fst (addAccount e draft (Some secret) r)) !! k =
              secretStorage r !! k)).
Proof.
  split; [exact perform_accounts_independent|].
  intros e draft secret r Hpat Hsecret. cbn.
  rewrite Hsecret, Hpat, bool_decide_eq_true_2 by done.
  cbn. unfold storeToken. cbn.
  split; [done|]. split; [apply lookup_insert_eq|].
  intros k Hk. by rewrite lookup_insert_ne.
Qed.

(** ** The remote URL pattern *)

Lemma includes_char_cons (c d : ascii) (s : string) :
  JS.includes (String c s) (String d EmptyString) =
  Ascii.eqb c d || JS.includes s (String d EmptyString).
Proof. cbn. by destruct (Ascii.eqb c d). Qed.

Lemma includes_char_app (d : ascii) (a b : string) :
  JS.includes (a +:+ b) (String d EmptyString) =
  JS.includes a (String d EmptyString) || JS.includes b (String d EmptyString).
Proof.
  induction a as [|c a IH].
  - rewrite app_nil_l_s. cbn. by destruct b.
  - rewrite app_cons_s, !includes_char_cons, IH. by rewrite orb_assoc.
Qed.

Lemma stripPrefix_spec (s p r : string) :
  Regex.stripPrefix s p = Some r ↔ s = p +:+ r.
Proof.
  revert s. induction p as [|b p IH]; intros s; cbn.
  - rewrite app_nil_l_s. split; congruence.
  - rewrite app_cons_s. destruct s as [|a s]; [done|].
    destruct (Ascii.eqb_spec a b) as [->|Hne].
    + rewrite IH. split; congruence.
    + split; congruence.
Qed.

Lemma untilColon_spec (s h rest : string) :
  Regex.untilColon s = Some (h, rest) ↔
  s = h +:+ ":" +:+ rest ∧ JS.includes h ":" = false.
Proof.
  revert h. induction s as [|c s IH]; intros h; cbn.
  - split; [done|]. intros [Hs _]. by destruct h.
  - destruct (Ascii.eqb_spec c ":") as [->|Hne].
    + split.
      * by intros [= <- <-].
      * intros [Hs Hh]. destruct h as [|x h].
        -- rewrite app_nil_l_s, app_cons_s, app_nil_l_s in Hs. congruence.
        -- rewrite app_cons_s in Hs. injection Hs as <- _.
           by rewrite includes_char_cons in Hh.
    + destruct (Regex.untilColon s) as [[h' rest']|] eqn:Hu.
      * split.
        -- intros [= <- <-]. destruct (proj1 (IH h') eq_refl) as [-> Hh'].
           split; [done|]. rewrite includes_char_cons, Hh'.
           by destruct (Ascii.eqb_spec c ":").
        -- intros [Hs Hh]. destruct h as [|x h].
           ++ rewrite app_nil_l_s, app_cons_s, app_nil_l_s in Hs. congruence.
           ++ rewrite app_cons_s in Hs. injection Hs as <- Hs.
              rewrite includes_char_cons in Hh.
              apply orb_false_iff in Hh as [_ Hh].
              assert (Some (h', rest') = Some (h, rest)) as [= -> ->]; [|done].
              by apply IH.
      * split; [done|]. intros [Hs Hh]. destruct h as [|x h].
        -- rewrite app_nil_l_s, app_cons_s, app_nil_l_s in Hs. congruence.
        -- rewrite app_cons_s in Hs. injection Hs as <- Hs.
           rewrite includes_char_cons in Hh.
           apply orb_false_iff in Hh as [_ Hh].
           assert (None = Some (h, rest)); [|done]. by apply IH.
Qed.

(** The pattern matches exactly the texts of the shape [git@host:path],
      and its groups are the host and the path. *)
Lemma sshUrlPattern_spec (url host path : string) :
  Regex.sshUrlPattern url = Some (host, path) ↔ gitShorthand url host path.
Proof.
  unfold Regex.sshUrlPattern, gitShorthand. split.
  - destruct (Regex.stripPrefix url "git@") as [after|] eqn:Hs; [|done].
    apply stripPrefix_spec in Hs as ->.
    destruct (Regex.untilColon after) as [[h p]|] eqn:Hu; [|done].
    apply untilColon_spec in Hu as [-> Hh].
    destruct (JS.truthy h) eqn:Hth; [|done].
    destruct (JS.truthy p) eqn:Htp; [|done].
    destruct (Regex.hasLineTerminator p) eqn:Hlt; [done|].
    by intros [= <- <-].
  - intros (-> & Hth & Hh & Htp & Hlt).
    rewrite (proj2 (stripPrefix_spec _ "git@" (host +:+ ":" +:+ path)) eq_refl).
    rewrite (proj2 (untilColon_spec _ host path) (conj eq_refl Hh)).
    by rewrite Hth, Htp, Hlt.
Qed.

Lemma sshUrlPattern_None (url : string) :
  Regex.sshUrlPattern url = None ↔ ∀ host path, ¬ gitShorthand url host path.
Proof.
  split.
  - intros Hn host path Hs. apply sshUrlPattern_spec in Hs. congruence.
  - intros Hno. destruct (Regex.sshUrlPattern url) as [[host path]|] eqn:Hm; [|done].
    apply sshUrlPattern_spec in Hm. by destruct (Hno host path).
Qed.

Section ConfigureSSH.
Context `{Platform} `{Shell}.

(** With a working directory given, [execGit] runs the words, joined by
    spaces, in that directory. *)
Lemma execGit_exec (workspaceFolder : option string) (args : list string)
    (cwd : string) (g : Repos) :
  JS.truthy cwd = true →
  execGit workspaceFolder args cwd g =
    match exec ("git " +:+ String.concat " " args) cwd g with
    | (g', Ok stdout) => (g', Ok (trim stdout))
    | (g', Throw message) => (g', Throw message)
    end.
Proof.
  intros Hcwd. unfold execGit. rewrite Hcwd. cbv iota. rewrite Hcwd. cbn [negb].
  by destruct (exec _ cwd g) as [g' [out|message]].
Qed.

(** [setRemoteUrl] hands one command line to the shell, the URL in it as
    it is, and gives back what the shell gives. *)
Lemma setRemoteUrl_exec (workspaceFolder : option string) (url cwd : string)
    (g : Repos) :
  JS.truthy cwd = true →
  setRemoteUrl workspaceFolder url cwd g =
    match exec ("git remote set-url origin " +:+ url) cwd g with
    | (g', Ok _) => (g', Ok ())
    | (g', Throw message) => (g', Throw message)
    end.
Proof.
  intros Hcwd. unfold setRemoteUrl. rewrite execGit_exec by done.
  assert ("git " +:+ String.concat " " ["remote"; "set-url"; "origin"; url] =
          "git remote set-url origin " +:+ url) as -> by (cbn; by norm_app).
  by destruct (exec _ cwd g) as [g' [out|message]].
Qed.

(** C3 (as the code has it). For an SSH account with a host alias: a
    repository without a remote URL is left as it is, without an error;
    for a remote of the shape [git@host:path] the code sets the URL
    [git@<sshHost>:path], the user [git] and the path being kept, by
    running the command line [git remote set-url origin git@<sshHost>:path]
    in the repository: the repositories afterwards are what the shell
    and git make of that command line, and its failure is the failure
    of the call; every other remote, also one of another user, is left
    as it is. *)
Theorem configureSSHForAccount_spec (workspaceFolder : option string)
    (account : GitAccount.t) (cwd : string) (g : Repos) (sshHost : string) :
  GitAccount.authType account = ssh →
  GitAccount.sshHost account = Some sshHost →
  JS.truthy sshHost = true →
  (getRemoteUrl (remoteUrls g) cwd = None
   ∨ getRemoteUrl (remoteUrls g) cwd = Some EmptyString →
   configureSSHForAccount workspaceFolder account cwd g = (g, Ok ()))
  ∧ (∀ url host path,
       getRemoteUrl (remoteUrls g) cwd = Some url →
       gitShorthand url host path →
       configureSSHForAccount workspaceFolder account cwd g =
         setRemoteUrl workspaceFolder ("git@" +:+ sshHost +:+ ":" +:+ path) cwd g
       ∧ (JS.truthy cwd = true →
          (∀ g' out,
             exec ("git remote set-url origin git@" +:+ sshHost +:+ ":" +:+ path)
               cwd g = (g', Ok out) →
             configureSSHForAccount workspaceFolder account cwd g = (g', Ok ()))
          ∧ (∀ g' message,
               exec ("git remote set-url origin git@" +:+ sshHost +:+ ":" +:+ path)
                 cwd g = (g', Throw message) →
               configureSSHForAccount workspaceFolder account cwd g =
                 (g', Throw message))))
  ∧ (∀ url,
       getRemoteUrl (remoteUrls g) cwd = Some url →
       (∀ host path, ¬ gitShorthand url host path) →
       configureSSHForAccount workspaceFolder account cwd g = (g, Ok ())).
Proof.
  intros Hauth Hhost Ht. split; [|split].
  - unfold configureSSHForAccount. rewrite Hauth, Hhost, Ht.
    by intros [-> | ->].
  - intros url host path Hurl Hshape.
    assert (Hsets :
      configureSSHForAccount workspaceFolder account cwd g =
      setRemoteUrl workspaceFolder ("git@" +:+ sshHost +:+ ":" +:+ path) cwd g).
    { unfold configureSSHForAccount. rewrite Hauth, Hhost, Ht, Hurl.
      pose proof Hshape as (Heq & _).
      apply sshUrlPattern_spec in Hshape. rewrite Hshape. by rewrite Heq. }
    split; [done|]. intros Hcwd. rewrite Hsets, setRemoteUrl_exec by done.
    assert ("git remote set-url origin " +:+ "git@" +:+ sshHost +:+ ":" +:+ path =
            "git remote set-url origin git@" +:+ sshHost +:+ ":" +:+ path) as ->
      by by norm_app.
    split; intros g' ? Hexec; by rewrite Hexec.
  - intros url Hurl Hno. unfold configureSSHForAccount.
    rewrite Hauth, Hhost, Ht, Hurl.
    apply sshUrlPattern_None in Hno. rewrite Hno.
    by destruct (JS.truthy url).
Qed.

End ConfigureSSH.

(** ** The SSH client configuration *)

Lemma splitLines_nonempty (s : string) : splitLines s ≠ [].
Proof.
  destruct s as [|c s]; cbn; [done|].
  destruct (Ascii.eqb c JSON.LF); [done|]. by destruct (splitLines s).
Qed.

Lemma splitLines_app_LF (a b : string) :
  splitLines (a +:+ String JSON.LF b) = splitLines a ++ splitLines b.
Proof.
  induction a as [|c a IH].
  - by rewrite app_nil_l_s.
  - rewrite app_cons_s. cbn. rewrite IH.
    destruct (Ascii.eqb c JSON.LF); [done|].
    pose proof (splitLines_nonempty a). by destruct (splitLines a).
Qed.

Lemma splitLines_single (s : string) : singleLine s → splitLines s = [s].
Proof.
  unfold singleLine. induction s as [|c s IH]; [done|].
  rewrite includes_char_cons. intros [Hc Hs]%orb_false_iff.
  cbn. by rewrite Hc, (IH Hs).
Qed.

Lemma splitLines_head (s l : string) (ls : list string) :
  splitLines s = l :: ls → JS.startsWith s l = true.
Proof.
  revert l ls. induction s as [|c s IH]; intros l ls; cbn.
  - by intros [= <- <-].
  - destruct (Ascii.eqb c JSON.LF); [by intros [= <- <-]|].
    destruct (splitLines s) as [|l' ls'] eqn:Hs; intros [= <- <-]; cbn.
    + by rewrite Ascii.eqb_refl.
    + rewrite Ascii.eqb_refl. by eapply IH.
Qed.

(** A line of a text occurs in it. *)
Lemma splitLines_includes (s l : string) :
  l ∈ splitLines s → JS.includes s l = true.
Proof.
  revert l. induction s as [|c s IH]; intros l; cbn [splitLines].
  - intros ->%list_elem_of_singleton. done.
  - rewrite includes_unfold, orb_true_iff.
    destruct (Ascii.eqb c JSON.LF).
    + intros [->|Hin]%elem_of_cons; [by left|right; by apply IH].
    + destruct (splitLines s) as [|l' ls'] eqn:Hs.
      * by destruct (splitLines_nonempty s).
      * intros [->|Hin]%elem_of_cons.
        -- left. cbn. rewrite Ascii.eqb_refl. by eapply splitLines_head.
        -- right. apply IH. by right.
Qed.

Lemma hostBlocks_absent (alias content : string) :
  JS.includes content ("Host " +:+ alias) = false → hostBlocks alias content = 0.
Proof.
  intros Hno. apply count_occ_not_In. intros Hin%list_elem_of_In.
  apply splitLines_includes in Hin. congruence.
Qed.

Lemma singleLine_app (a b : string) :
  singleLine a → singleLine b → singleLine (a +:+ b).
Proof.
  unfold singleLine. intros Ha Hb. by rewrite includes_char_app, Ha, Hb.
Qed.

(** The generated entry, line by line. *)
Lemma generateSSHConfigEntry_lines (account : GitAccount.t)
    (sshHost sshKeyPath : string) :
  GitAccount.authType account = ssh →
  GitAccount.sshHost account = Some sshHost →
  JS.truthy sshHost = true →
  GitAccount.sshKeyPath account = Some sshKeyPath →
  JS.truthy sshKeyPath = true →
  generateSSHConfigEntry account =
  String JSON.LF (("# Git Account Manager - " +:+ GitAccount.name account) +:+
  String JSON.LF (("Host " +:+ sshHost) +:+
  String JSON.LF ("    HostName github.com" +:+
  String JSON.LF ("    User git" +:+
  String JSON.LF (("    IdentityFile " +:+ sshKeyPath) +:+
  String JSON.LF ("    IdentitiesOnly yes" +:+
  String JSON.LF EmptyString)))))).
Proof.
  intros Ha Hh Hth Hk Htk. unfold generateSSHConfigEntry.
  rewrite Ha, Hh, Hk, Hth, Htk. cbn [andb]. by norm_app.
Qed.

Lemma generateSSHConfigEntry_declares (account : GitAccount.t)
    (sshHost sshKeyPath : string) :
  GitAccount.authType account = ssh →
  GitAccount.sshHost account = Some sshHost →
  JS.truthy sshHost = true →
  GitAccount.sshKeyPath account = Some sshKeyPath →
  JS.truthy sshKeyPath = true →
  JS.truthy (generateSSHConfigEntry account) = true
  ∧ JS.includes (generateSSHConfigEntry account) ("Host " +:+ sshHost) = true.
Proof.
  intros Ha Hh Hth Hk Htk.
  rewrite (generateSSHConfigEntry_lines _ _ _ Ha Hh Hth Hk Htk).
  split; [done|]. apply includes_spec.
  exists (String JSON.LF (("# Git Account Manager - " +:+ GitAccount.name account)
            +:+ String JSON.LF EmptyString)),
         (String JSON.LF ("    HostName github.com" +:+
          String JSON.LF ("    User git" +:+
          String JSON.LF (("    IdentityFile " +:+ sshKeyPath) +:+
          String JSON.LF ("    IdentitiesOnly yes" +:+
          String JSON.LF EmptyString))))).
  by norm_app.
Qed.

(** The entry holds one line that declares the alias. *)
Lemma hostBlocks_entry (account : GitAccount.t) (old sshHost sshKeyPath : string) :
  GitAccount.authType account = ssh →
  GitAccount.sshHost account = Some sshHost →
  JS.truthy sshHost = true →
  GitAccount.sshKeyPath account = Some sshKeyPath →
  JS.truthy sshKeyPath = true →
  singleLine (GitAccount.name account) →
  singleLine sshHost →
  singleLine sshKeyPath →
  hostBlocks sshHost (old +:+ generateSSHConfigEntry account) =
  S (hostBlocks sshHost old).
Proof.
  intros Ha Hh Hth Hk Htk Hn Hs Hp.
  rewrite (generateSSHConfigEntry_lines _ _ _ Ha Hh Hth Hk Htk).
  unfold hostBlocks. rewrite !splitLines_app_LF, count_occ_app.
  set (before := count_occ _ (splitLines old) _).
  rewrite !splitLines_single
    by (try apply singleLine_app; first [assumption | exact eq_refl]).
  cbn [app].
  rewrite count_occ_cons_neq by (rewrite !app_cons_s; discriminate).
  rewrite count_occ_cons_eq by done.
  rewrite !count_occ_cons_neq by (rewrite ?app_cons_s; discriminate).
  cbn. lia.
Qed.

Section EnsureSSHAlias.
Context `{Platform}.

Lemma addSSHConfigEntry_unfold (account : GitAccount.t) (fs : FileSystem)
    (sshHost sshKeyPath : string) :
  GitAccount.authType account = ssh →
  GitAccount.sshHost account = Some sshHost →
  JS.truthy sshHost = true →
  GitAccount.sshKeyPath account = Some sshKeyPath →
  JS.truthy sshKeyPath = true →
  addSSHConfigEntry account fs =
  if isSSHHostConfigured fs sshHost then fs
  else
    appendFileSync
      (if negb (existsSync fs (path_dirname getSSHConfigPath))
       then mkdirSync fs (path_dirname getSSHConfigPath) else fs)
      getSSHConfigPath (generateSSHConfigEntry account).
Proof.
  intros Ha Hh Hth Hk Htk. unfold addSSHConfigEntry.
  rewrite Ha, Hh, Hth.
  destruct (generateSSHConfigEntry_declares _ _ _ Ha Hh Hth Hk Htk) as [-> _].
  done.
Qed.

Lemma readFileSync_mkdir_step (fs : FileSystem) (d p : string) :
  readFileSync (if negb (existsSync fs d) then mkdirSync fs d else fs) p =
  readFileSync fs p.
Proof. by destruct (negb (existsSync fs d)). Qed.

Lemma readFileSync_append (fs : FileSystem) (p q content : string) :
  readFileSync (appendFileSync fs p content) q =
  if bool_decide (p = q)
  then Some (default EmptyString (readFileSync fs p) +:+ content)
  else readFileSync fs q.
Proof.
  unfold readFileSync, appendFileSync; cbn. case_bool_decide as Hpq.
  - subst q. apply lookup_insert_eq.
  - by apply lookup_insert_ne.
Qed.

(** What [addSSHConfigEntry] does when called twice. For an SSH account
    with a key path, the
    second of two calls in a row changes nothing; a call keeps every
    file's text as a prefix of its new text and removes no directory;
    and when the config text holds no [Host <alias>] before the first
    call (or there is no config file), the two calls leave it as the
    old text followed by one generated entry, which, for a name, an
    alias and a key path without line feeds, gives exactly one line
    [Host <alias>]. *)
Theorem addSSHConfigEntry_idempotent (account : GitAccount.t) (fs : FileSystem)
    (sshHost sshKeyPath : string) :
  GitAccount.authType account = ssh →
  GitAccount.sshHost account = Some sshHost →
  JS.truthy sshHost = true →
  GitAccount.sshKeyPath account = Some sshKeyPath →
  JS.truthy sshKeyPath = true →
  addSSHConfigEntry account (addSSHConfigEntry account fs) =
    addSSHConfigEntry account fs
  ∧ (∀ p c, readFileSync fs p = Some c →
       ∃ added, readFileSync (addSSHConfigEntry account fs) p = Some (c +:+ added))
  ∧ dirs fs ⊆ dirs (addSSHConfigEntry account fs)
  ∧ (isSSHHostConfigured fs sshHost = false →
     readFileSync (addSSHConfigEntry account (addSSHConfigEntry account fs))
       getSSHConfigPath =
       Some (default EmptyString (readFileSync fs getSSHConfigPath) +:+
             generateSSHConfigEntry account)
     ∧ (singleLine (GitAccount.name account) →
        singleLine sshHost →
        singleLine sshKeyPath →
        hostBlocks sshHost
          (default EmptyString (readFileSync fs getSSHConfigPath) +:+
           generateSSHConfigEntry account) = 1)).
Proof.
  intros Ha Hh Hth Hk Htk.
  pose proof (generateSSHConfigEntry_declares _ _ _ Ha Hh Hth Hk Htk)
    as [_ Hdecl].
  assert (Hsecond :
    addSSHConfigEntry account (addSSHConfigEntry account fs) =
    addSSHConfigEntry account fs).
  { rewrite (addSSHConfigEntry_unfold account (addSSHConfigEntry account fs)
               _ _ Ha Hh Hth Hk Htk).
    rewrite (addSSHConfigEntry_unfold account fs _ _ Ha Hh Hth Hk Htk).
    destruct (isSSHHostConfigured fs sshHost) eqn:Hc; [by rewrite Hc|].
    unfold isSSHHostConfigured at 1.
    rewrite readFileSync_append, bool_decide_eq_true_2 by done.
    by rewrite (includes_app_r _ _ _ Hdecl). }
  split; [exact Hsecond|]. rewrite Hsecond.
  rewrite (addSSHConfigEntry_unfold account fs _ _ Ha Hh Hth Hk Htk).
  destruct (isSSHHostConfigured fs sshHost) eqn:Hc.
  - split; [|split; [done|done]].
    intros p c ->. exists EmptyString. by norm_app.
  - split; [|split].
    + intros p c Hp. rewrite readFileSync_append, !readFileSync_mkdir_step.
      case_bool_decide as Hpq.
      * subst p. rewrite Hp. by eexists.
      * exists EmptyString. rewrite Hp. by norm_app.
    + cbn. destruct (negb (existsSync fs _)); cbn; set_solver.
    + intros _. rewrite readFileSync_append, bool_decide_eq_true_2 by done.
      rewrite readFileSync_mkdir_step. split; [done|].
      intros Hn Hs Hp.
      rewrite (hostBlocks_entry _ _ _ _ Ha Hh Hth Hk Htk Hn Hs Hp).
      rewrite hostBlocks_absent; [done|].
      unfold isSSHHostConfigured in Hc.
      destruct (readFileSync fs getSSHConfigPath); [done|].
      cbn. by rewrite app_cons_s.
Qed.

End EnsureSSHAlias.

(** ** Id generation *)

Lemma pretty_N_char_not_underscore (x : N) :
  Ascii.eqb (pretty_N_char x) "_" = false.
Proof. unfold pretty_N_char. by repeat case_match. Qed.

Lemma pretty_N_go_no_underscore (x : N) (s : string) :
  JS.includes s "_" = false → JS.includes (pretty_N_go x s) "_" = false.
Proof.
  revert s. induction (N.lt_wf_0 x) as [x _ IH]; intros s Hs.
  assert (x = 0 ∨ 0 < x)%N as [->|Hpos] by lia.
  - by rewrite pretty_N_go_0.
  - rewrite pretty_N_go_step by done. apply IH.
    + by apply N.div_lt.
    + by rewrite includes_char_cons, pretty_N_char_not_underscore, Hs.
Qed.

(** The decimal form of the clock reading holds no underscore. *)
Lemma pretty_N_no_underscore (x : N) : JS.includes (pretty x) "_" = false.
Proof.
  unfold pretty, pretty_N. case_decide; [done|].
  by apply pretty_N_go_no_underscore.
Qed.

(** A text is cut at its first underscore in one way only. *)
Lemma cut_at_underscore (h1 h2 r1 r2 : string) :
  JS.includes h1 "_" = false →
  JS.includes h2 "_" = false →
  h1 +:+ "_" +:+ r1 = h2 +:+ "_" +:+ r2 →
  h1 = h2 ∧ r1 = r2.
Proof.
  revert h2. induction h1 as [|x h1 IH]; intros [|y h2] H1 H2 Heq;
    rewrite ?app_nil_l_s, ?app_cons_s, ?app_nil_l_s in Heq;
    rewrite ?includes_char_cons in H1; rewrite ?includes_char_cons in H2.
  - split; congruence.
  - injection Heq as <- _. by rewrite Ascii.eqb_refl in H2.
  - injection Heq as -> _. by rewrite Ascii.eqb_refl in H1.
  - injection Heq as <- Heq.
    apply orb_false_iff in H1 as [_ H1]. apply orb_false_iff in H2 as [_ H2].
    destruct (IH h2 H1 H2 Heq) as [-> ->]. done.
Qed.

(** Two ids are the same exactly when the clock readings are and the
    kept parts of the random texts are: nothing else goes into an id. *)
Lemma generateId_eq_iff (e1 e2 : Entropy) :
  generateId e1 = generateId e2 ↔
  now e1 = now e2 ∧ JS.substr (random36 e1) 2 9 = JS.substr (random36 e2) 2 9.
Proof.
  unfold generateId. split.
  - intros Heq%(inj (String.app "account_")).
    apply cut_at_underscore in Heq as [Hnow Hsub];
      try apply pretty_N_no_underscore.
    split; [by apply (inj pretty)|done].
  - by intros [-> ->].
Qed.

(** C8. Two accounts added in the same millisecond, with random texts
    that agree on the nine characters [generateId] keeps, get the same
    id, and the registry then holds that id twice. *)
Theorem generateId_collision :
  random36 Scenario.reading1 ≠ random36 Scenario.reading2
  ∧ generateId Scenario.reading1 = generateId Scenario.reading2
  ∧ GitAccount.id <$>
      accounts
        (fst (addAccount Scenario.reading2 Scenario.draftLowerWork None
                (fst (addAccount Scenario.reading1 Scenario.draftClient None
                        Scenario.emptyRegistry)))) =
    ["account_1700000000000_4fzyo82mv"; "account_1700000000000_4fzyo82mv"]
  ∧ ¬ NoDup
        (GitAccount.id <$>
           accounts
             (fst (addAccount Scenario.reading2 Scenario.draftLowerWork None
                     (fst (addAccount Scenario.reading1 Scenario.draftClient None
                             Scenario.emptyRegistry))))).
Proof.
  split; [discriminate|]. split; [by vm_compute|].
  assert (Hids :
    GitAccount.id <$>
      accounts
        (fst (addAccount Scenario.reading2 Scenario.draftLowerWork None
                (fst (addAccount Scenario.reading1 Scenario.draftClient None
                        Scenario.emptyRegistry)))) =
    ["account_1700000000000_4fzyo82mv"; "account_1700000000000_4fzyo82mv"])
    by (by vm_compute).
  split; [exact Hids|]. rewrite Hids. intros Hnd.
  apply NoDup_cons in Hnd as [Hnotin _]. apply Hnotin. by left.
Qed.

(** The id taken by an account that was removed is given out again when
    the readings repeat. *)
Example generateId_reuse_after_removal :
  let r1 := fst (addAccount Scenario.reading1 Scenario.draftClient None
                   Scenario.emptyRegistry) in
  let r2 := fst (removeAccount "account_1700000000000_4fzyo82mv" r1) in
  accounts r2 = []
  ∧ GitAccount.id (snd (addAccount Scenario.reading2 Scenario.draftLowerWork None r2))
    = "account_1700000000000_4fzyo82mv".
Proof. by vm_compute. Qed.

(** C4. On the registry that two additions with colliding ids leave,
    [removeAccount] of that id answers [true] and takes the first holder
    out, [getAccountById] still finds the second under the id, and a
    second removal of the same id answers [true] again rather than
    false. *)
Example removeAccount_after_collision :
  let r2 :=
    fst (addAccount Scenario.reading2 Scenario.draftLowerWork None
           (fst (addAccount Scenario.reading1 Scenario.draftClient None
                   Scenario.emptyRegistry))) in
  snd (removeAccount "account_1700000000000_4fzyo82mv" r2) = true
  ∧ GitAccount.name <$>
      getAccountById
        (accounts (fst (removeAccount "account_1700000000000_4fzyo82mv" r2)))
        "account_1700000000000_4fzyo82mv"
    = Some "work"
  ∧ snd (removeAccount "account_1700000000000_4fzyo82mv"
           (fst (removeAccount "account_1700000000000_4fzyo82mv" r2))) = true.
Proof. by vm_compute. Qed.

(** ** Example runs *)

Lemma detect_strategy_order_witness :
  (fileOverride (accounts Scenario.registry) Scenario.fileNamesNumber
     Scenario.repo = None
   ∧ detectAccountForRepo (accounts Scenario.registry) Scenario.directToPersonal
       Scenario.fileNamesNumber Scenario.originAlice Scenario.repo
     = Throw "TypeError: name.toLowerCase is not a function")
  ∧ directPathMapping Scenario.directToPersonal Scenario.repo
    = Some (GitAccount.id Scenario.personal)
  ∧ detectAccountForRepo (accounts Scenario.registry) Scenario.patternToWork
      Scenario.noFiles Scenario.originAcme Scenario.repo
    = Ok (Some (GitAccount.id Scenario.work)).
Proof.
  split; [|split].
  - apply (proj2 (proj2 (@detect_strategy_order Posix.platform
                           (accounts Scenario.registry) Scenario.directToPersonal
                           Scenario.fileNamesNumber Scenario.originAlice
                           Scenario.repo))).
    vm_compute. reflexivity.
  - vm_compute. reflexivity.
  - apply (proj1 (proj2 (proj2 (proj1 (proj2 (@detect_strategy_order
             Posix.platform (accounts Scenario.registry) Scenario.patternToWork
             Scenario.noFiles Scenario.originAcme Scenario.repo))
             ltac:(vm_compute; reflexivity))))).
    + vm_compute. reflexivity.
    + vm_compute. reflexivity.
Defined.

Lemma detect_name_fallback_witness :
  detectAccountForRepo (accounts Scenario.registry) Scenario.directToPersonal
    Scenario.fileNamesWORK Scenario.originAlice Scenario.repo
  = Ok (Some (GitAccount.id Scenario.work))
  ∧ fileOverride (accounts Scenario.registry) Scenario.fileNamesNumber
      Scenario.repo = None
  ∧ detectAccountForRepo (accounts Scenario.registry) Scenario.directToPersonal
      Scenario.fileNamesNumber Scenario.originAlice Scenario.repo
    = Throw "TypeError: name.toLowerCase is not a function".
Proof.
  split.
  - refine (proj1 (@detect_name_fallback Posix.platform
                     (accounts Scenario.registry) Scenario.directToPersonal
                     Scenario.fileNamesWORK Scenario.originAlice Scenario.repo
                     {| FileConfig.accountId := Some (JS.Str "account_1_gone");
                        FileConfig.accountName := Some (JS.Str "WORK") |}
                     (JS.Str "account_1_gone") _ _ _) "WORK" Scenario.work _ _ _);
      vm_compute; reflexivity.
  - refine (proj2 (proj2 (@detect_name_fallback Posix.platform
                     (accounts Scenario.registry) Scenario.directToPersonal
                     Scenario.fileNamesNumber Scenario.originAlice Scenario.repo
                     {| FileConfig.accountId := Some (JS.Str "account_1_gone");
                        FileConfig.accountName := Some (JS.NotString true) |}
                     (JS.Str "account_1_gone") _ _ _)) _ _);
      first [vm_compute; reflexivity | discriminate].
Defined.

Lemma write_then_detect_witness :
  ∃ fs', writeGitAccountFile (accounts Scenario.registry) Scenario.noFiles
           Scenario.repo (GitAccount.id Scenario.work) = Ok fs'
         ∧ detectAccountForRepo (accounts Scenario.registry) Scenario.directToPersonal
             fs' Scenario.originAlice Scenario.repo
           = Ok (Some (GitAccount.id Scenario.work)).
Proof.
  apply (write_then_detect _ _ _ _ _ _ Scenario.work).
  - vm_compute. reflexivity.
  - reflexivity.
  - vm_compute. reflexivity.
Defined.

Lemma writeGitAccountFile_spec_witness :
  ∃ fs' content,
    writeGitAccountFile (accounts Scenario.registry) Scenario.noFiles
      Scenario.repo (GitAccount.id Scenario.work) = Ok fs'
    ∧ readFileSync fs' (gitAccountPath Scenario.repo) = Some content
    ∧ JS.includes content (JSON.quote (GitAccount.id Scenario.work)) = true
    ∧ JS.includes content (JSON.quote (GitAccount.name Scenario.work)) = true.
Proof.
  destruct (proj2 (@writeGitAccountFile_spec Posix.platform
                     (accounts Scenario.registry) Scenario.noFiles Scenario.repo
                     (GitAccount.id Scenario.work))
              Scenario.work ltac:(by left) eq_refl)
    as (account & fs' & content & _ & _ & Hsame & Hwrite & Hread & _ & Hid
        & Hname & _).
  rewrite Hsame in Hname.
  - by exists fs', content.
  - apply (bool_decide_unpack _). vm_compute. exact I.
Defined.

Lemma removeAccount_spec_witness :
  NoDup (GitAccount.id <$> accounts Scenario.registry)
  ∧ getAccountById
      (accounts (fst (removeAccount (GitAccount.id Scenario.personal)
                        Scenario.registry)))
      (GitAccount.id Scenario.personal) = None
  ∧ getToken (GitAccount.id Scenario.personal)
      (secretStorage (fst (removeAccount (GitAccount.id Scenario.personal)
                             Scenario.registry))) = None.
Proof.
  assert (Hnd : NoDup (GitAccount.id <$> accounts Scenario.registry)).
  { apply (bool_decide_unpack _). vm_compute. exact I. }
  pose proof (removeAccount_spec (GitAccount.id Scenario.personal)
                Scenario.registry) as (_ & Hsecret & _ & Hgone).
  split; [exact Hnd|]. split.
  - exact (proj1 (Hgone Hnd)).
  - apply (Hsecret Scenario.personal); reflexivity.
Defined.

Lemma addAccount_unvalidated_witness :
  (∀ input os fs,
     typedName input = Some (AccountDraft.name Scenario.draftLowerWork) →
     addAccountCommand input Scenario.reading3 os Scenario.registry fs =
       (Scenario.registry, fs, []))
  ∧ accounts (fst (addAccount Scenario.reading3 Scenario.draftLowerWork None
                     Scenario.registry)) =
    accounts Scenario.registry ++
      [withId Scenario.draftLowerWork (generateId Scenario.reading3)].
Proof.
  pose proof (addAccount_unvalidated Scenario.reading3 Scenario.draftLowerWork
                None Scenario.registry) as Hadd.
  destruct Hadd as (Hprompt & Hpush & _).
  - right. eexists. vm_compute. reflexivity.
  - split; [exact Hprompt|exact Hpush].
Defined.

Lemma token_only_in_secretStorage_witness :
  getToken (generateId Scenario.reading3)
    (secretStorage (fst (addAccount Scenario.reading3 Scenario.draftClient
                           (Some "ghp_client") Scenario.registry)))
  = Some "ghp_client".
Proof.
  exact (proj1 (proj2 (proj2 token_only_in_secretStorage Scenario.reading3
                         Scenario.draftClient "ghp_client" Scenario.registry
                         eq_refl eq_refl))).
Defined.

Lemma configureSSHForAccount_spec_witness :
  configureSSHForAccount (Some Scenario.repo) Scenario.work Scenario.repo
    (Scenario.reposOf Scenario.originAlice)
  = (Scenario.reposOf
       {[ Scenario.repo := "git@github.com-work:alice/project.git" ]}, Ok ()).
Proof.
  refine (proj1 (proj2 (proj1 (proj2 (@configureSSHForAccount_spec Posix.platform
            Posix.shell (Some Scenario.repo) Scenario.work Scenario.repo
            (Scenario.reposOf Scenario.originAlice) "github.com-work"
            eq_refl eq_refl eq_refl))
            "git@github.com:alice/project.git" "github.com" "alice/project.git"
            _ _) eq_refl) _ EmptyString _).
  - vm_compute. reflexivity.
  - unfold gitShorthand. repeat split.
  - vm_compute. reflexivity.
Defined.

Lemma addSSHConfigEntry_idempotent_witness :
  addSSHConfigEntry Scenario.work
    (addSSHConfigEntry Scenario.work Scenario.noFiles)
  = addSSHConfigEntry Scenario.work Scenario.noFiles
  ∧ hostBlocks "github.com-work"
      (default EmptyString (readFileSync Scenario.noFiles getSSHConfigPath) +:+
       generateSSHConfigEntry Scenario.work) = 1.
Proof.
  pose proof (addSSHConfigEntry_idempotent Scenario.work Scenario.noFiles
                "github.com-work" "~/.ssh/id_work"
                eq_refl eq_refl eq_refl eq_refl eq_refl) as (Hsame & _ & _ & Hone).
  split; [exact Hsame|].
  apply Hone; reflexivity.
Defined.

(** A path with no file, no pattern match and no direct mapping. *)
Example detect_nothing :
  detectAccountForRepo (accounts Scenario.registry) [] Scenario.noFiles
    Scenario.originAlice Scenario.repo = Ok None.
Proof. by vm_compute. Qed.

(** ** Where the code parts from the specification *)

(** C2: the registry accepts a draft whose name differs only in case from
    that of an account it holds. *)
Lemma addAccount_accepts_duplicate_name :
  is_Some (getAccountByName (accounts Scenario.registry)
             (AccountDraft.name Scenario.draftLowerWork))
  ∧ accounts (fst (addAccount Scenario.reading3 Scenario.draftLowerWork None
                     Scenario.registry)) =
    [Scenario.work; Scenario.personal;
     withId Scenario.draftLowerWork "account_1700000123456_9x8a7b6c5"]
  ∧ accounts (fst (addAccount Scenario.reading3 Scenario.draftLowerWork None
                     Scenario.registry)) ≠ accounts Scenario.registry.
Proof.
  split; [eexists; vm_compute; reflexivity|].
  split; [by vm_compute|]. vm_compute. discriminate.
Qed.

(** C3: a remote of the shape [user@host:path] with a user other than
    [git] keeps its host. *)
Lemma configureSSH_other_user_untouched :
  configureSSHForAccount (Some Scenario.repo) Scenario.work Scenario.repo
    (Scenario.reposOf Scenario.originAsAlice)
  = (Scenario.reposOf Scenario.originAsAlice, Ok ())
  ∧ getRemoteUrl Scenario.originAsAlice Scenario.repo
    = Some "alice@github.com:alice/project.git"
  ∧ getRemoteUrl
      (remoteUrls
         (fst (configureSSHForAccount (Some Scenario.repo) Scenario.work
                 Scenario.repo (Scenario.reposOf Scenario.originAsAlice))))
      Scenario.repo
    ≠ Some "alice@github.com-work:alice/project.git".
Proof. split; [by vm_compute|]. split; [by vm_compute|]. vm_compute. discriminate. Qed.

(** C5. On an SSH config that declares only the longer alias
    [github.com-work2], the alias [github.com-work] counts as
    configured, for the test looks for the text [Host github.com-work]
    anywhere in the file; so two calls in a row for the account of that
    alias add nothing, and the config holds no [Host] line for the
    alias afterwards, not one. *)
Example ensureSSHAlias_misses_shorter_alias :
  isSSHHostConfigured Scenario.declaresLonger "github.com-work" = true
  ∧ hostBlocks "github.com-work" (Scenario.sshConfigText Scenario.declaresLonger) = 0
  ∧ addSSHConfigEntry Scenario.work
      (addSSHConfigEntry Scenario.work Scenario.declaresLonger)
    = Scenario.declaresLonger
  ∧ hostBlocks "github.com-work"
      (Scenario.sshConfigText
         (addSSHConfigEntry Scenario.work
            (addSSHConfigEntry Scenario.work Scenario.declaresLonger))) ≠ 1.
Proof.
  split; [by vm_compute|]. split; [by vm_compute|]. split; [by vm_compute|].
  vm_compute. discriminate.
Qed.

(** * Further properties of the services *)

(** ** SecretStorageService *)

Lemma token_key_inj (a b : string) :
  STORAGE_KEYS.PAT_PREFIX +:+ a = STORAGE_KEYS.PAT_PREFIX +:+ b → a = b.
Proof. apply (inj (String.app _)). Qed.

(** X1. A token is read back under the id it was stored under and is
    gone once deleted; storing or deleting the token of one account
    leaves the token of every other account as it was; [hasToken] holds
    exactly for a stored token that is not empty. *)
Theorem token_laws (a b t : string) (s : gmap string string) :
  getToken a (storeToken a t s) = Some t
  ∧ getToken a (deleteToken a s) = None
  ∧ hasToken a (storeToken a t s) = JS.truthy t
  ∧ hasToken a (deleteToken a s) = false
  ∧ (a ≠ b →
     getToken b (storeToken a t s) = getToken b s
     ∧ getToken b (deleteToken a s) = getToken b s).
Proof.
  unfold hasToken, getToken, storeToken, deleteToken. cbn zeta.
  rewrite lookup_insert_eq, lookup_delete_eq. repeat split.
  - rewrite lookup_insert_ne; [done|]. intros Hk%token_key_inj. congruence.
  - rewrite lookup_delete_ne; [done|]. intros Hk%token_key_inj. congruence.
Qed.

Lemma token_laws_witness :
  getToken "b" (storeToken "a" "t" ∅) = getToken "b" ∅
  ∧ getToken "b" (deleteToken "a" ∅) = getToken "b" ∅.
Proof.
  apply (proj2 (proj2 (proj2 (proj2 (token_laws "a" "b" "t" ∅))))).
  discriminate.
Defined.

(** ** AccountManager: lookups after each operation *)

Lemma find_app_s {A} (p : A → bool) (l k : list A) :
  List.find p (l ++ k) =
  match List.find p l with Some x => Some x | None => List.find p k end.
Proof.
  induction l as [|x l IH]; [done|]. cbn. by destruct (p x).
Qed.

(** X2. After [addAccount], every id that named an account names the
    same account; the new account is found under its id when no account
    had that id before, and it is the last of the array. *)
Theorem addAccount_lookup (e : Entropy) (draft : AccountDraft.t)
    (token : option string) (r : Registry) :
  (∀ i acc, getAccountById (accounts r) i = Some acc →
     getAccountById (accounts (fst (addAccount e draft token r))) i = Some acc)
  ∧ (getAccountById (accounts r) (generateId e) = None →
     getAccountById (accounts (fst (addAccount e draft token r))) (generateId e)
       = Some (snd (addAccount e draft token r)))
  ∧ (∀ i, i ≠ generateId e →
     getAccountById (accounts (fst (addAccount e draft token r))) i =
       getAccountById (accounts r) i)
  ∧ last (accounts (fst (addAccount e draft token r))) =
      Some (snd (addAccount e draft token r)).
Proof.
  destruct (addAccount_accounts e draft token r) as (-> & _ & ->).
  unfold getAccountById. repeat split.
  - intros i acc Hf. by rewrite find_app_s, Hf.
  - intros Hf. rewrite find_app_s, Hf. cbn.
    unfold hasId. cbn. by rewrite bool_decide_eq_true_2.
  - intros i Hi. rewrite find_app_s. destruct (find _ (accounts r)); [done|].
    cbn. unfold hasId. cbn. by rewrite bool_decide_eq_false_2.
  - apply last_snoc.
Qed.

Lemma addAccount_lookup_witness :
  getAccountById
    (accounts (fst (addAccount Scenario.reading3 Scenario.draftClient None
                      Scenario.registry)))
    (generateId Scenario.reading3)
  = Some (snd (addAccount Scenario.reading3 Scenario.draftClient None
                 Scenario.registry)).
Proof.
  apply (proj1 (proj2 (addAccount_lookup _ _ _ _))). vm_compute. reflexivity.
Defined.




Lemma alter_first (l : list GitAccount.t) (u : AccountUpdates.t)
    (i : string) (n : nat) :
  findIndex (hasId i) l = Some n →
  GitAccount.id <$> alter (λ account, assign account u) n l = GitAccount.id <$> l
  ∧ getAccountById (alter (λ account, assign account u) n l) i =
      (λ account, assign account u) <$> getAccountById l i
  ∧ (∀ j, j ≠ i →
       getAccountById (alter (λ account, assign account u) n l) j =
         getAccountById l j).
Proof.
  revert n. induction l as [|x l IH]; intros n Hn; [done|].
  cbn in Hn. unfold getAccountById. destruct (hasId i x) eqn:Hix.
  - injection Hn as <-. cbn. unfold hasId in *. cbn. rewrite Hix.
    repeat split. intros j Hj. apply bool_decide_eq_true in Hix.
    by rewrite !bool_decide_eq_false_2 by congruence.
  - destruct (findIndex (hasId i) l) as [m|] eqn:Hm; [|done].
    injection Hn as <-. destruct (IH m eq_refl) as (Hids & Hsame & Hothers).
    cbn. rewrite Hix. repeat split.
    + by f_equal.
    + exact Hsame.
    + intros j Hj. destruct (hasId j x); [done|]. by apply Hothers.
Qed.

Lemma updateAccount_facts (i : string) (u : AccountUpdates.t) (r : Registry) :
  GitAccount.id <$> accounts (fst (updateAccount i u r)) =
    GitAccount.id <$> accounts r
  ∧ secretStorage (fst (updateAccount i u r)) = secretStorage r
  ∧ getAccountById (accounts (fst (updateAccount i u r))) i =
      (λ account, assign account u) <$> getAccountById (accounts r) i
  ∧ (∀ j, j ≠ i →
       getAccountById (accounts (fst (updateAccount i u r))) j =
         getAccountById (accounts r) j).
Proof.
  unfold updateAccount.
  destruct (getAccountById (accounts r) i) as [acc|] eqn:Hf.
  - destruct (findIndex_of_find _ _ _ Hf) as (n & Hn & Hl). rewrite Hn.
    cbn [fst snd accounts secretStorage saveAccounts setAccounts].
    destruct (alter_first _ u _ _ Hn) as (Hids & Hsame & Hothers).
    split; [done|]. split; [done|]. split; [|done]. by rewrite Hsame, Hf.
  - rewrite (findIndex_None _ _ Hf). cbn. by rewrite Hf.
Qed.

(** X4. [updateAccount] answers [true] exactly when some account has the
    id; it keeps the ids, in their order, and the secret storage; the
    account the id names afterwards is the old one with the given
    fields assigned, and every other id names what it named. *)
Theorem updateAccount_spec (i : string) (u : AccountUpdates.t) (r : Registry) :
  (snd (updateAccount i u r) = true ↔
     ∃ acc, acc ∈ accounts r ∧ GitAccount.id acc = i)
  ∧ GitAccount.id <$> accounts (fst (updateAccount i u r)) =
      GitAccount.id <$> accounts r
  ∧ secretStorage (fst (updateAccount i u r)) = secretStorage r
  ∧ getAccountById (accounts (fst (updateAccount i u r))) i =
      (λ account, assign account u) <$> getAccountById (accounts r) i
  ∧ (∀ j, j ≠ i →
       getAccountById (accounts (fst (updateAccount i u r))) j =
         getAccountById (accounts r) j).
Proof.
  split; [|apply updateAccount_facts]. unfold updateAccount.
  destruct (getAccountById (accounts r) i) as [acc|] eqn:Hf.
  - destruct (findIndex_of_find _ _ _ Hf) as (n & Hn & Hl). rewrite Hn. cbn.
    split; [|done]. intros _. exists acc.
    split; [by eapply list_elem_of_lookup_2|by eapply getAccountById_id].
  - rewrite (findIndex_None _ _ Hf). cbn. split; [done|].
    intros (acc & Hin & Hid). apply list_elem_of_In in Hin.
    eapply getAccountById_None in Hf; [|exact Hin]. done.
Qed.

Lemma updateAccount_spec_witness :
  getAccountById
    (accounts
       (fst (updateAccount (GitAccount.id Scenario.personal)
               {| AccountUpdates.name := Some "Home";
                  AccountUpdates.username := None;
                  AccountUpdates.email := None;
                  AccountUpdates.authType := None;
                  AccountUpdates.sshKeyPath := None;
                  AccountUpdates.sshHost := None |}
               Scenario.registry)))
    (GitAccount.id Scenario.work)
  = getAccountById (accounts Scenario.registry) (GitAccount.id Scenario.work).
Proof.
  apply (proj2 (proj2 (proj2 (proj2 (updateAccount_spec _ _ _))))). discriminate.
Defined.

(** ** AccountManager: what every operation keeps *)

(** X5. Pairwise distinct ids are kept by every removal and update, and
    by an addition whose generated id names no account yet; an addition
    whose generated id is in use breaks them. *)
Theorem uniqueIds_kept (op : RegistryOp) (r : Registry) :
  uniqueIds (accounts r) →
  (∀ e draft token, op = Add e draft token →
     getAccountById (accounts r) (generateId e) = None) ↔
  uniqueIds (accounts (perform op r)).
Proof.
  unfold uniqueIds. intros Hnd. destruct op as [e draft token|i|i u]; cbn [perform].
  - destruct (addAccount_accounts e draft token r) as (-> & _ & _).
    rewrite fmap_app, NoDup_app. cbn. split.
    + intros Hfresh. specialize (Hfresh e draft token eq_refl).
      split; [done|]. split; [|apply NoDup_singleton].
      intros x Hin ->%list_elem_of_singleton.
      apply list_elem_of_fmap in Hin as (acc & Hid & Hin).
      apply list_elem_of_In in Hin.
      eapply getAccountById_None in Hfresh; [|exact Hin]. congruence.
    + intros (_ & Hnotin & _) ? ? ? [= <- <- <-].
      apply getAccountById_None. intros acc Hin%list_elem_of_In Hid.
      apply (Hnotin (generateId e)); [|by left].
      apply list_elem_of_fmap. by exists acc.
  - split; [intros _|by intros _ ? ? ? [=]].
    destruct (getAccountById (accounts r) i) as [acc|] eqn:Hf.
    + destruct (removeAccount_found _ _ _ Hf) as (n & _ & _ & ->). cbn.
      rewrite list_fmap_delete. eapply sublist_NoDup; [done|apply sublist_delete].
    + by rewrite (removeAccount_missing _ _ Hf).
  - split; [intros _|by intros _ ? ? ? [=]].
    by rewrite (proj1 (updateAccount_facts i u r)).
Qed.

Lemma uniqueIds_kept_witness :
  uniqueIds (accounts Scenario.registry)
  ∧ uniqueIds
      (accounts (perform (Add Scenario.reading3 Scenario.draftClient None)
                   Scenario.registry)).
Proof.
  assert (Hnd : uniqueIds (accounts Scenario.registry)).
  { apply (bool_decide_unpack _). vm_compute. exact I. }
  split; [exact Hnd|].
  apply (proj1 (uniqueIds_kept _ _ Hnd)).
  intros e draft token [= <- <- <-]. vm_compute. reflexivity.
Defined.

(** X6. When the persisted array is the one in memory, it still is after
    every operation, the ones that find nothing included; loading then
    gives back the array in memory. *)
Theorem persisted_kept (op : RegistryOp) (r : Registry) :
  persisted r →
  persisted (perform op r)
  ∧ accounts (loadAccounts (perform op r)) = accounts (perform op r).
Proof.
  unfold persisted. intros Hp.
  assert (Hkept : globalState_accounts (perform op r) = accounts (perform op r));
    [|by split].
  destruct op as [e draft token|i|i u]; cbn [perform].
  - by destruct (addAccount_accounts e draft token r) as (-> & -> & _).
  - destruct (getAccountById (accounts r) i) as [acc|] eqn:Hf.
    + by destruct (removeAccount_found _ _ _ Hf) as (n & _ & _ & ->).
    + by rewrite (removeAccount_missing _ _ Hf).
  - unfold updateAccount. by destruct (findIndex _ _).
Qed.

Lemma persisted_kept_witness :
  persisted (perform (Remove "account_1_gone") Scenario.registry).
Proof.
  apply (proj1 (persisted_kept (Remove "account_1_gone") Scenario.registry
                  eq_refl)).
Defined.



(** ** AccountManager: lookup by name *)

Section ByName.
Context `{Platform}.

Lemma getAccountByName_None (l : list GitAccount.t) (n : string) :
  getAccountByName l n = None ↔
  ∀ acc, acc ∈ l → toLowerCase (GitAccount.name acc) ≠ toLowerCase n.
Proof.
  unfold getAccountByName. split.
  - intros Hf acc Hin%list_elem_of_In Heq.
    pose proof (find_none _ _ Hf acc Hin) as Hn. cbn in Hn.
    by rewrite bool_decide_eq_true_2 in Hn.
  - intros Hall. destruct (find _ l) as [acc|] eqn:Hf; [|done].
    apply find_some in Hf as [Hin%list_elem_of_In Heq].
    apply bool_decide_eq_true in Heq. by destruct (Hall acc Hin).
Qed.

Lemma getAccountByName_Some (l : list GitAccount.t) (n : string)
    (acc : GitAccount.t) :
  getAccountByName l n = Some acc →
  acc ∈ l ∧ toLowerCase (GitAccount.name acc) = toLowerCase n.
Proof.
  unfold getAccountByName. intros [Hin Heq]%find_some.
  split; [by apply list_elem_of_In|by apply bool_decide_eq_true in Heq].
Qed.

(** X8. [getAccountByName] compares lower-cased names: it finds nothing
    exactly when no account's lower-cased name is the lower-cased query,
    what it finds is an account of the array with that lower-cased
    name, and two queries with the same lower-cased form give the same
    answer. *)
Theorem getAccountByName_spec (l : list GitAccount.t) (n : string) :
  (getAccountByName l n = None ↔
     ∀ acc, acc ∈ l → toLowerCase (GitAccount.name acc) ≠ toLowerCase n)
  ∧ (∀ acc, getAccountByName l n = Some acc →
       acc ∈ l ∧ toLowerCase (GitAccount.name acc) = toLowerCase n)
  ∧ (∀ n', toLowerCase n' = toLowerCase n →
       getAccountByName l n' = getAccountByName l n).
Proof.
  split; [apply getAccountByName_None|].
  split; [intros acc; apply getAccountByName_Some|].
  intros n' Heq. unfold getAccountByName. by rewrite Heq.
Qed.

End ByName.

Lemma getAccountByName_spec_witness :
  getAccountByName (accounts Scenario.registry) "PERSONAL" =
  getAccountByName (accounts Scenario.registry) "personal".
Proof.
  apply (proj2 (proj2 (getAccountByName_spec _ _))). vm_compute. reflexivity.
Defined.

(** ** RepoMappingService: the mapping table *)

Lemma Map_get_None {V} (m : list (string * V)) (k : string) :
  Map_get m k = None ↔ k ∉ fst <$> m.
Proof.
  induction m as [|[k' v] m IH]; cbn.
  - split; [intros _; apply not_elem_of_nil|done].
  - rewrite not_elem_of_cons, <- IH. cbn.
    case_bool_decide as Hk.
    + split; [done|]. intros [Hne _]. congruence.
    + split; [intros Hm; split; [congruence|done]|by intros [_ Hm]].
Qed.

Lemma Map_get_set_eq {V} (m : list (string * V)) (k : string) (v : V) :
  Map_get (Map_set m k v) k = Some v.
Proof.
  induction m as [|[k' v'] m IH]; cbn.
  - by rewrite bool_decide_eq_true_2.
  - case_bool_decide as Hk; cbn; rewrite ?Hk.
    + by rewrite bool_decide_eq_true_2.
    + by rewrite bool_decide_eq_false_2.
Qed.

Lemma Map_get_set_ne {V} (m : list (string * V)) (k q : string) (v : V) :
  k ≠ q → Map_get (Map_set m k v) q = Map_get m q.
Proof.
  intros Hkq. induction m as [|[k' v'] m IH]; cbn.
  - by rewrite bool_decide_eq_false_2.
  - case_bool_decide as Hk; cbn.
    + subst k'. by rewrite !bool_decide_eq_false_2.
    + by rewrite IH.
Qed.

Lemma Map_set_new {V} (m : list (string * V)) (k : string) (v : V) :
  k ∉ fst <$> m → Map_set m k v = m ++ [(k, v)].
Proof.
  induction m as [|[k' v'] m IH]; cbn; [done|].
  rewrite not_elem_of_cons. intros [Hk Hm].
  rewrite bool_decide_eq_false_2 by done. by rewrite IH.
Qed.

Lemma Map_set_keys {V} (m : list (string * V)) (k : string) (v : V) :
  k ∈ fst <$> m → fst <$> Map_set m k v = fst <$> m.
Proof.
  induction m as [|[k' v'] m IH]; cbn.
  - by intros ?%elem_of_nil.
  - case_bool_decide as Hk; cbn; [done|].
    intros [?|Hin]%elem_of_cons; [congruence|]. by rewrite IH.
Qed.

Lemma uniqueKeys_set {V} (m : list (string * V)) (k : string) (v : V) :
  uniqueKeys m → uniqueKeys (Map_set m k v).
Proof.
  unfold uniqueKeys. intros Hnd.
  destruct (decide (k ∈ fst <$> m)) as [Hin|Hnotin].
  - by rewrite Map_set_keys.
  - rewrite Map_set_new, fmap_app, NoDup_app by done. cbn.
    split; [done|]. split; [|apply NoDup_singleton].
    by intros x Hx ->%list_elem_of_singleton.
Qed.

Lemma Map_delete_sublist {V} (m : list (string * V)) (k : string) :
  Map_delete m k `sublist_of` m.
Proof.
  induction m as [|[k' v'] m IH]; cbn; [done|].
  case_bool_decide; [by apply sublist_cons|by apply sublist_skip].
Qed.

Lemma Map_get_delete_eq {V} (m : list (string * V)) (k : string) :
  uniqueKeys m → Map_get (Map_delete m k) k = None.
Proof.
  unfold uniqueKeys. induction m as [|[k' v'] m IH]; cbn; [done|].
  intros [Hk Hnd]%NoDup_cons. case_bool_decide as Hkk; cbn.
  - subst k'. by apply Map_get_None.
  - rewrite bool_decide_eq_false_2 by done. by apply IH.
Qed.

Lemma Map_get_delete_ne {V} (m : list (string * V)) (k q : string) :
  k ≠ q → Map_get (Map_delete m k) q = Map_get m q.
Proof.
  intros Hkq. induction m as [|[k' v'] m IH]; cbn; [done|].
  case_bool_decide as Hk; cbn.
  - subst k'. by rewrite bool_decide_eq_false_2.
  - by rewrite IH.
Qed.

(** X9. After [setMapping], [getMapping] of the path gives the mapping
    that was set, with its pattern, and every other path gives what it
    gave; the table written to the global state is the one in memory;
    the keys stay pairwise distinct, a path already mapped keeps its
    place and a new one goes last. *)
Theorem setMapping_spec (repoPath accountId : string)
    (remotePattern : option string) (t : MappingTable) :
  getMapping repoPath (setMapping repoPath accountId remotePattern t) =
    Some {| RepoMapping.repoPath := repoPath;
            RepoMapping.accountId := accountId;
            RepoMapping.remotePattern := remotePattern |}
  ∧ (∀ q, q ≠ repoPath →
     getMapping q (setMapping repoPath accountId remotePattern t) = getMapping q t)
  ∧ globalState_mappings (setMapping repoPath accountId remotePattern t) =
      mappings (setMapping repoPath accountId remotePattern t)
  ∧ (uniqueKeys (mappings t) →
     uniqueKeys (mappings (setMapping repoPath accountId remotePattern t)))
  ∧ fst <$> mappings (setMapping repoPath accountId remotePattern t) =
      (if bool_decide (repoPath ∈ fst <$> mappings t)
       then fst <$> mappings t
       else (fst <$> mappings t) ++ [repoPath]).
Proof.
  unfold getMapping, setMapping. cbn.
  split; [apply Map_get_set_eq|].
  split; [intros q Hq; by apply Map_get_set_ne|].
  split; [done|]. split; [apply uniqueKeys_set|].
  case_bool_decide as Hin.
  - by apply Map_set_keys.
  - by rewrite Map_set_new, fmap_app.
Qed.

Lemma setMapping_spec_witness :
  getMapping "/home/alice/other-clone"
    (setMapping "/home/alice/project" "account_1700000000000_4fzyo82mv" None
       {| mappings := Scenario.patternToWork;
          globalState_mappings := Scenario.patternToWork |})
  = getMapping "/home/alice/other-clone"
      {| mappings := Scenario.patternToWork;
         globalState_mappings := Scenario.patternToWork |}.
Proof.
  apply (proj1 (proj2 (setMapping_spec _ _ _ _))). discriminate.
Defined.

(** X10. After [removeMapping] on a table whose keys are pairwise
    distinct, the path has no mapping; every other path keeps its
    mapping, the keys stay distinct, and the table written to the global
    state is the one in memory. *)
Theorem removeMapping_spec (repoPath : string) (t : MappingTable) :
  (uniqueKeys (mappings t) →
   getMapping repoPath (removeMapping repoPath t) = None
   ∧ uniqueKeys (mappings (removeMapping repoPath t)))
  ∧ (∀ q, q ≠ repoPath →
     getMapping q (removeMapping repoPath t) = getMapping q t)
  ∧ globalState_mappings (removeMapping repoPath t) =
      mappings (removeMapping repoPath t).
Proof.
  unfold getMapping, removeMapping. cbn. split; [|split; [|done]].
  - intros Hnd. split; [by apply Map_get_delete_eq|].
    unfold uniqueKeys in *. eapply sublist_NoDup; [exact Hnd|].
    apply fmap_sublist, Map_delete_sublist.
  - intros q Hq. by apply Map_get_delete_ne.
Qed.

Lemma removeMapping_spec_witness :
  uniqueKeys Scenario.patternToWork
  ∧ getMapping "/home/alice/project"
      (removeMapping "/home/alice/project"
         {| mappings := Scenario.patternToWork;
            globalState_mappings := Scenario.patternToWork |}) = None.
Proof.
  assert (Hnd : uniqueKeys Scenario.patternToWork).
  { apply (bool_decide_unpack _). vm_compute. exact I. }
  split; [exact Hnd|].
  exact (proj1 (proj1 (removeMapping_spec "/home/alice/project"
                         {| mappings := Scenario.patternToWork;
                            globalState_mappings := Scenario.patternToWork |})
                  Hnd)).
Defined.

Section MappingsAndDetection.
Context `{Platform}.

Lemma find_Map_set_None {V} (P : string * V → bool) (m : list (string * V))
    (k : string) (v : V) :
  (∀ k', P (k', v) = false) →
  List.find P m = None → List.find P (Map_set m k v) = None.
Proof.
  intros Hv. induction m as [|[k' v'] m IH]; cbn.
  - by rewrite Hv.
  - destruct (P (k', v')) eqn:HP; [done|]. intros Hf.
    case_bool_decide; cbn; [by rewrite Hv|]. rewrite HP. by apply IH.
Qed.

(** X11. First registered wins: when a pattern of the table already
    decides a repository, setting a mapping for a path that was not in
    the table, with whatever pattern, leaves that decision as it is. *)
Theorem earlier_pattern_wins (t : MappingTable) (g : gmap string string)
    (repoPath newPath accountId a : string) (remotePattern : option string) :
  remotePatternMapping (mappings t) g repoPath = Some a →
  newPath ∉ fst <$> mappings t →
  remotePatternMapping (mappings (setMapping newPath accountId remotePattern t))
    g repoPath = Some a.
Proof.
  unfold remotePatternMapping, setMapping. cbn. intros Hold Hnew.
  rewrite Map_set_new by done.
  destruct (getRemoteUrl g repoPath) as [url|]; [|done].
  destruct (JS.truthy url); [|done].
  rewrite find_app_s. by destruct (find _ (mappings t)).
Qed.

(** X12. After [setMapping] of a path without a pattern, as the switch
    and configure commands do it, detection on that path gives the
    mapped id, provided the repository file, if there is one that
    parses, has string properties and resolves no account, and no
    pattern of the table matched the remote. *)
Theorem setMapping_then_detect (accts : list GitAccount.t) (t : MappingTable)
    (fs : FileSystem) (g : gmap string string) (repoPath accountId : string) :
  typedFile fs repoPath = true →
  fileOverride accts fs repoPath = None →
  remotePatternMapping (mappings t) g repoPath = None →
  detectAccountForRepo accts (mappings (setMapping repoPath accountId None t))
    fs g repoPath = Ok (Some accountId).
Proof.
  intros Htyped Hfile Hpattern.
  rewrite detect_chain, (typedFile_untypedName _ _ _ Htyped), Hfile.
  unfold remotePatternMapping, directPathMapping in *. unfold setMapping. cbn.
  rewrite Map_get_set_eq. cbn.
  destruct (getRemoteUrl g repoPath) as [url|]; [|done].
  destruct (JS.truthy url); [|done].
  destruct (find _ (mappings t)) eqn:Hf; [done|].
  by rewrite find_Map_set_None.
Qed.

End MappingsAndDetection.

Lemma earlier_pattern_wins_witness :
  remotePatternMapping
    (mappings
       (setMapping "/home/alice/third" "account_1700000000999_k3x9q0d2a"
          (Some "github.com")
          {| mappings := Scenario.patternToWork;
             globalState_mappings := Scenario.patternToWork |}))
    Scenario.originAcme Scenario.repo
  = Some "account_1700000000000_4fzyo82mv".
Proof.
  apply (earlier_pattern_wins
           {| mappings := Scenario.patternToWork;
              globalState_mappings := Scenario.patternToWork |}).
  - vm_compute. reflexivity.
  - apply (bool_decide_unpack _). vm_compute. exact I.
Defined.

Lemma setMapping_then_detect_witness :
  detectAccountForRepo (accounts Scenario.registry)
    (mappings
       (setMapping Scenario.repo "account_1700000000000_4fzyo82mv" None
          {| mappings := Scenario.directToPersonal;
             globalState_mappings := Scenario.directToPersonal |}))
    Scenario.noFiles Scenario.originAlice Scenario.repo
  = Ok (Some "account_1700000000000_4fzyo82mv").
Proof.
  apply (@setMapping_then_detect Posix.platform).
  - vm_compute. reflexivity.
  - vm_compute. reflexivity.
  - vm_compute. reflexivity.
Defined.

(** ** GitService: the SSH client configuration *)

(** X13. An entry is generated only for an SSH account that has both a
    host alias and a key path; for every other account nothing is
    generated and [addSSHConfigEntry] leaves the file system as it is. *)
Theorem generateSSHConfigEntry_empty (account : GitAccount.t) :
  (generateSSHConfigEntry account = EmptyString ↔
     GitAccount.authType account = pat
     ∨ JS.truthy_opt (GitAccount.sshHost account) = false
     ∨ JS.truthy_opt (GitAccount.sshKeyPath account) = false)
  ∧ ∀ `{Platform} (fs : FileSystem),
      generateSSHConfigEntry account = EmptyString →
      addSSHConfigEntry account fs = fs.
Proof.
  split.
  - unfold generateSSHConfigEntry.
    destruct (GitAccount.authType account);
      destruct (GitAccount.sshHost account) as [[|c h]|];
      destruct (GitAccount.sshKeyPath account) as [[|d k]|]; cbn;
      (split;
       [ intros Hentry;
         first [ by left | by right; left | by right; right
               | rewrite ?app_cons_s in Hentry; discriminate ]
       | intros [?|[?|?]]; first [done | discriminate] ]).
  - intros P fs Hempty. unfold addSSHConfigEntry. rewrite Hempty. cbn.
    destruct (GitAccount.authType account); [|done].
    destruct (GitAccount.sshHost account) as [h|]; [|done].
    by destruct (JS.truthy h).
Qed.

Lemma generateSSHConfigEntry_empty_witness :
  addSSHConfigEntry Scenario.personal Scenario.declaresLonger
  = Scenario.declaresLonger.
Proof.
  apply (proj2 (generateSSHConfigEntry_empty Scenario.personal)). reflexivity.
Defined.

Section SSHConfigMore.
Context `{Platform}.

(** Whatever the account, a call keeps every file's text as the beginning
    of its new text. *)
Lemma addSSHConfigEntry_appends (account : GitAccount.t) (fs : FileSystem)
    (p c : string) :
  readFileSync fs p = Some c →
  ∃ added, readFileSync (addSSHConfigEntry account fs) p = Some (c +:+ added).
Proof.
  intros Hp. unfold addSSHConfigEntry.
  assert (Hsame : ∃ added, readFileSync fs p = Some (c +:+ added)).
  { exists EmptyString. rewrite Hp. by norm_app. }
  destruct (GitAccount.authType account); [|done].
  destruct (GitAccount.sshHost account) as [h|]; [|done].
  destruct (JS.truthy h); [|done].
  destruct (negb (JS.truthy (generateSSHConfigEntry account))); [done|].
  destruct (isSSHHostConfigured fs h); [done|].
  rewrite readFileSync_append.
  case_bool_decide as Hpq; rewrite readFileSync_mkdir_step; [|exact Hsame].
  subst p. rewrite Hp. by eexists.
Qed.


(** X14. After [addSSHConfigEntry] for an SSH account with a host alias
    and a key path, [isSSHHostConfigured] holds for its alias and the
    config file is there; when the entry had to be added, the directory
    of the config file is there as well. *)
Theorem addSSHConfigEntry_ensures (account : GitAccount.t) (fs : FileSystem)
    (sshHost sshKeyPath : string) :
  GitAccount.authType account = ssh →
  GitAccount.sshHost account = Some sshHost →
  JS.truthy sshHost = true →
  GitAccount.sshKeyPath account = Some sshKeyPath →
  JS.truthy sshKeyPath = true →
  isSSHHostConfigured (addSSHConfigEntry account fs) sshHost = true
  ∧ is_Some (readFileSync (addSSHConfigEntry account fs) getSSHConfigPath)
  ∧ (isSSHHostConfigured fs sshHost = false →
     existsSync (addSSHConfigEntry account fs) (path_dirname getSSHConfigPath)
       = true).
Proof.
  intros Ha Hh Hth Hk Htk.
  rewrite (addSSHConfigEntry_unfold account fs _ _ Ha Hh Hth Hk Htk).
  destruct (generateSSHConfigEntry_declares _ _ _ Ha Hh Hth Hk Htk) as [_ Hdecl].
  destruct (isSSHHostConfigured fs sshHost) eqn:Hc.
  - split; [done|]. split; [|done].
    unfold isSSHHostConfigured in Hc.
    by destruct (readFileSync fs getSSHConfigPath).
  - unfold isSSHHostConfigured.
    rewrite readFileSync_append, bool_decide_eq_true_2 by done.
    split; [by apply includes_app_r|]. split; [done|]. intros _.
    destruct (negb (existsSync fs (path_dirname getSSHConfigPath))) eqn:Hex;
      unfold existsSync, appendFileSync, mkdirSync in *; cbn.
    + apply orb_true_iff. right. apply bool_decide_eq_true. set_solver.
    + apply negb_false_iff in Hex.
      apply orb_true_iff in Hex as [Hfile|Hdir]; apply orb_true_iff.
      * apply bool_decide_eq_true in Hfile as [c Hc'].
        left. apply bool_decide_eq_true.
        destruct (decide (getSSHConfigPath = path_dirname getSSHConfigPath))
          as [Heq|Hne].
        -- rewrite <- Heq. rewrite lookup_insert_eq. by eexists.
        -- rewrite lookup_insert_ne by done. by eexists.
      * by right.
Qed.

(** X15. An alias that [isSSHHostConfigured] holds for stays so after
    [addSSHConfigEntry] for any account: the entries of other accounts
    are never lost. *)
Theorem isSSHHostConfigured_kept (account : GitAccount.t) (fs : FileSystem)
    (hostAlias : string) :
  isSSHHostConfigured fs hostAlias = true →
  isSSHHostConfigured (addSSHConfigEntry account fs) hostAlias = true.
Proof.
  unfold isSSHHostConfigured.
  destruct (readFileSync fs getSSHConfigPath) as [c|] eqn:Hc; [|done].
  intros Hin. destruct (addSSHConfigEntry_appends account fs _ _ Hc) as [added ->].
  by apply includes_app_l.
Qed.

(** X16. The test for an alias is a test for the text [Host <alias>]
    anywhere in the config: once an alias is declared, every beginning
    of it counts as declared too, and [addSSHConfigEntry] adds nothing
    for an account whose alias is such a beginning. *)
Theorem isSSHHostConfigured_prefix (account : GitAccount.t) (fs : FileSystem)
    (sshHost rest : string) :
  isSSHHostConfigured fs (sshHost +:+ rest) = true →
  isSSHHostConfigured fs sshHost = true
  ∧ (GitAccount.sshHost account = Some sshHost →
     addSSHConfigEntry account fs = fs).
Proof.
  unfold isSSHHostConfigured.
  destruct (readFileSync fs getSSHConfigPath) as [c|] eqn:Hc; [|done].
  intros (a & b & ->)%includes_spec.
  assert (Hshort : JS.includes (a +:+ ("Host " +:+ sshHost +:+ rest) +:+ b)
                     ("Host " +:+ sshHost) = true).
  { apply includes_spec. exists a, (rest +:+ b). by norm_app. }
  split; [exact Hshort|]. intros Hh. unfold addSSHConfigEntry. rewrite Hh.
  destruct (GitAccount.authType account); [|done].
  destruct (JS.truthy sshHost); [|done].
  destruct (negb (JS.truthy (generateSSHConfigEntry account))); [done|].
  unfold isSSHHostConfigured. by rewrite Hc, Hshort.
Qed.

End SSHConfigMore.

Lemma addSSHConfigEntry_ensures_witness :
  isSSHHostConfigured (addSSHConfigEntry Scenario.work Scenario.noFiles)
    "github.com-work" = true.
Proof.
  exact (proj1 (@addSSHConfigEntry_ensures Posix.platform Scenario.work
                  Scenario.noFiles "github.com-work" "~/.ssh/id_work"
                  eq_refl eq_refl eq_refl eq_refl eq_refl)).
Defined.

Lemma isSSHHostConfigured_kept_witness :
  isSSHHostConfigured
    (addSSHConfigEntry Scenario.work Scenario.declaresLonger)
    "github.com-work2" = true.
Proof.
  apply (@isSSHHostConfigured_kept Posix.platform). vm_compute. reflexivity.
Defined.

Lemma isSSHHostConfigured_prefix_witness :
  isSSHHostConfigured Scenario.declaresLonger "github.com-work" = true.
Proof.
  apply (proj1 (@isSSHHostConfigured_prefix Posix.platform Scenario.work
                  Scenario.declaresLonger "github.com-work" "2"
                  ltac:(vm_compute; reflexivity))).
Defined.

(** ** GitService: the remote URL *)


Section RemoteUrl.
Context `{Platform} `{Shell}.


(** The URL that an account with a host alias sets for a remote of the
    shape [git@host:path]. *)
Lemma configureSSHForAccount_sets (workspaceFolder : option string)
    (account : GitAccount.t) (cwd : string) (g : Repos)
    (sshHost url host path : string) :
  GitAccount.authType account = ssh →
  GitAccount.sshHost account = Some sshHost →
  JS.truthy sshHost = true →
  getRemoteUrl (remoteUrls g) cwd = Some url →
  gitShorthand url host path →
  configureSSHForAccount workspaceFolder account cwd g =
    setRemoteUrl workspaceFolder ("git@" +:+ sshHost +:+ ":" +:+ path) cwd g.
Proof.
  intros Ha Hh Ht Hurl Hshape. unfold configureSSHForAccount.
  rewrite Ha, Hh, Ht, Hurl. pose proof Hshape as (Heq & _).
  apply sshUrlPattern_spec in Hshape. rewrite Hshape. by rewrite Heq.
Qed.


(** X18. The path survives a switch: once the alias of another account,
    one without a colon, has been put into a remote of the shape
    [git@host:path], applying an SSH account sets the same URL,
    [git@<sshHost>:path], as applying it to the original remote does.
    [g1] is any state in which git reports the URL that the other
    account's switch handed it. *)
Theorem configureSSHForAccount_last_wins (workspaceFolder : option string)
    (account : GitAccount.t) (cwd : string) (g g1 : Repos)
    (sshHost otherHost url host path : string) :
  GitAccount.authType account = ssh →
  GitAccount.sshHost account = Some sshHost →
  JS.truthy sshHost = true →
  JS.truthy otherHost = true →
  JS.includes otherHost ":" = false →
  getRemoteUrl (remoteUrls g) cwd = Some url →
  gitShorthand url host path →
  getRemoteUrl (remoteUrls g1) cwd = Some ("git@" +:+ otherHost +:+ ":" +:+ path) →
  configureSSHForAccount workspaceFolder account cwd g =
    setRemoteUrl workspaceFolder ("git@" +:+ sshHost +:+ ":" +:+ path) cwd g
  ∧ configureSSHForAccount workspaceFolder account cwd g1 =
      setRemoteUrl workspaceFolder ("git@" +:+ sshHost +:+ ":" +:+ path) cwd g1.
Proof.
  intros Ha Hh Ht Hot Hcolon Hurl Hshape Hurl1.
  split; [by eapply configureSSHForAccount_sets|].
  eapply configureSSHForAccount_sets; [done..|].
  destruct Hshape as (_ & _ & _ & Hpath & Hline). by repeat split.
Qed.

End RemoteUrl.


Lemma configureSSHForAccount_last_wins_witness :
  configureSSHForAccount (Some Scenario.repo) Scenario.work Scenario.repo
    (fst (configureSSHForAccount (Some Scenario.repo) Scenario.work
            Scenario.repo (Scenario.reposOf Scenario.originAlice)))
  = setRemoteUrl (Some Scenario.repo) "git@github.com-work:alice/project.git"
      Scenario.repo
      (fst (configureSSHForAccount (Some Scenario.repo) Scenario.work
              Scenario.repo (Scenario.reposOf Scenario.originAlice))).
Proof.
  refine (proj2 (@configureSSHForAccount_last_wins Posix.platform Posix.shell
            (Some Scenario.repo) Scenario.work Scenario.repo
            (Scenario.reposOf Scenario.originAlice) _
            "github.com-work" "github.com-work"
            "git@github.com:alice/project.git" "github.com" "alice/project.git"
            eq_refl eq_refl eq_refl eq_refl eq_refl _ _ _)).
  - vm_compute. reflexivity.
  - unfold gitShorthand. repeat split.
  - vm_compute. reflexivity.
Defined.

(** ** The status bar *)

Section StatusBarShows.
Context `{Platform}.

Lemma refresh_found (fsPath : string) (accts : list GitAccount.t)
    (table : list (string * RepoMapping.t)) (fs : FileSystem)
    (g : gmap string string) (i : string) (account : GitAccount.t) :
  detectAccountForRepo accts table fs g fsPath = Ok (Some i) →
  JS.truthy i = true →
  getAccountById accts i = Some account →
  refresh (Some fsPath) accts table fs g = Ok (showing account).
Proof. intros Hd Ht Ha. unfold refresh. by rewrite Hd, Ht, Ha. Qed.

Lemma refresh_current (workspaceFolder : option string)
    (accts : list GitAccount.t) (table : list (string * RepoMapping.t))
    (fs : FileSystem) (g : gmap string string) (bar : StatusBarManager)
    (i : string) :
  refresh workspaceFolder accts table fs g = Ok bar →
  currentAccountId bar = Some i →
  ∃ fsPath account,
    workspaceFolder = Some fsPath
    ∧ detectAccountForRepo accts table fs g fsPath = Ok (Some i)
    ∧ getAccountById accts i = Some account
    ∧ bar = showing account.
Proof.
  unfold refresh. destruct workspaceFolder as [fsPath|]; [|by intros [= <-]].
  destruct (detectAccountForRepo accts table fs g fsPath) as [[d|]|] eqn:Hd;
    [|by intros [= <-]|done].
  destruct (JS.truthy d); [|by intros [= <-]].
  destruct (getAccountById accts d) as [account|] eqn:Ha; [|by intros [= <-]].
  cbn. pose proof (getAccountById_id _ _ _ Ha) as Hid.
  intros [= <-]. cbn. rewrite Hid. intros [= <-]. by exists fsPath, account.
Qed.

Lemma refresh_throws (workspaceFolder : option string)
    (accts : list GitAccount.t) (table : list (string * RepoMapping.t))
    (fs : FileSystem) (g : gmap string string) (message : string) :
  refresh workspaceFolder accts table fs g = Throw message →
  ∃ fsPath,
    workspaceFolder = Some fsPath
    ∧ detectAccountForRepo accts table fs g fsPath = Throw message
    ∧ untypedName accts fs fsPath = true.
Proof.
  unfold refresh. destruct workspaceFolder as [fsPath|]; [|done].
  destruct (detectAccountForRepo accts table fs g fsPath) as [[d|]|] eqn:Hd.
  - destruct (JS.truthy d); [|done]. by destruct (getAccountById accts d).
  - done.
  - intros [= <-]. exists fsPath. split; [done|]. split; [done|].
    rewrite detect_chain in Hd. by destruct (untypedName accts fs fsPath).
Qed.


End StatusBarShows.

(** ** The add-account command *)

Lemma given_Some (answer : option string) (value : string) :
  given answer = Some value → answer = Some value ∧ JS.truthy value = true.
Proof.
  destruct answer as [v|]; [|done]. cbn.
  destruct (JS.truthy v) eqn:Ht; [|done]. by intros [= <-].
Qed.

Lemma inputBox_Some (validateInput : string → option string)
    (typed : option string) (value : string) :
  inputBox validateInput typed = Some value →
  typed = Some value ∧ validateInput value = None.
Proof.
  destruct typed as [v|]; [|done]. cbn.
  destruct (validateInput v) eqn:Hv; [done|]. by intros [= <-].
Qed.

Lemma answer_Some (validateInput : string → option string)
    (typed : option string) (value : string) :
  given (inputBox validateInput typed) = Some value →
  typed = Some value ∧ validateInput value = None ∧ JS.truthy value = true.
Proof.
  intros [Hbox Ht]%given_Some. by apply inputBox_Some in Hbox as [? ?].
Qed.

Section AddAccountCommandProps.
Context `{Platform}.

Lemma validateName_None (accts : list GitAccount.t) (value : string) :
  validateName accts value = None →
  JS.truthy (trim value) = true ∧ getAccountByName accts value = None.
Proof.
  unfold validateName. destruct (JS.truthy (trim value)); [|done]. cbn.
  case_bool_decide as Hs; [done|]. intros _. split; [done|].
  destruct (getAccountByName accts value); [|done]. destruct Hs. by eexists.
Qed.

Lemma validateRequired_None (message value : string) :
  validateRequired message value = None → JS.truthy (trim value) = true.
Proof. unfold validateRequired. by destruct (JS.truthy (trim value)). Qed.

Lemma validateEmail_None (value : string) :
  validateEmail value = None →
  JS.truthy (trim value) = true ∧ JS.includes value "@" = true.
Proof.
  unfold validateEmail. destruct (JS.truthy (trim value)); [|done]. cbn.
  by destruct (JS.includes value "@").
Qed.



(** The two ways the command gets to create an account. *)
Lemma addAccountCommand_cases (input : AddAccountInput) (e : Entropy)
    (os : Writes) (r : Registry) (fs : FileSystem) :
  addAccountCommand input e os r fs = (r, fs, [])
  ∨ ∃ name username email,
      typedName input = Some name
      ∧ typedUsername input = Some username
      ∧ typedEmail input = Some email
      ∧ JS.truthy (trim name) = true
      ∧ getAccountByName (accounts r) name = None
      ∧ JS.truthy (trim username) = true
      ∧ JS.includes email "@" = true
      ∧ ((∃ sshKeyPath sshHost,
            pickedAuthType input = Some ssh
            ∧ typedSshKeyPath input = Some sshKeyPath
            ∧ typedSshHost input = Some sshHost
            ∧ JS.truthy sshKeyPath = true
            ∧ JS.truthy sshHost = true
            ∧ addAccountCommand input e os r fs =
                createAccount name username email ssh
                  (Some sshKeyPath) (Some sshHost) None e os r fs)
         ∨ (∃ token,
              pickedAuthType input = Some pat
              ∧ typedPat input = Some token
              ∧ JS.truthy token = true
              ∧ addAccountCommand input e os r fs =
                  createAccount name username email pat None None
                    (Some token) e os r fs)).
Proof.
  unfold addAccountCommand.
  destruct (given (inputBox (validateName _) _)) as [name|] eqn:Hname; [|by left].
  destruct (given (inputBox (validateRequired "Username is required") _))
    as [username|] eqn:Huser; [|by left].
  destruct (given (inputBox validateEmail _)) as [email|] eqn:Hemail; [|by left].
  apply answer_Some in Hname as (Hn & [Hn1 Hn2]%validateName_None & _).
  apply answer_Some in Huser as (Hu & Hu1%validateRequired_None & _).
  apply answer_Some in Hemail as (He & [_ He1]%validateEmail_None & _).
  destruct (pickedAuthType input) as [[|]|]; [| |by left].
  - destruct (given (inputBox _ (typedSshKeyPath input)))
      as [sshKeyPath|] eqn:Hkey; [|by left].
    destruct (given (typedSshHost input)) as [sshHost|] eqn:Hhost; [|by left].
    apply answer_Some in Hkey as (Hk & _ & Hk1).
    apply given_Some in Hhost as (Hh & Hh1).
    right. exists name, username, email. do 7 (split; [done|]).
    left. by exists sshKeyPath, sshHost.
  - destruct (given (inputBox _ (typedPat input))) as [token|] eqn:Htoken;
      [|by left].
    apply answer_Some in Htoken as (Ht & _ & Ht1).
    right. exists name, username, email. do 7 (split; [done|]).
    right. by exists token.
Qed.


(** X21. The add-account command keeps the names of the accounts
    pairwise distinct up to letter case, whatever the user answers. *)
Theorem addAccountCommand_uniqueNames (input : AddAccountInput) (e : Entropy)
    (os : Writes) (r : Registry) (fs : FileSystem) :
  uniqueNames (accounts r) →
  uniqueNames (accounts (fst (fst (addAccountCommand input e os r fs)))).
Proof.
  intros Hnd.
  assert (Hcreate : ∀ name username email authType sshKeyPath sshHost token,
    accounts (fst (fst (createAccount name username email authType
                          sshKeyPath sshHost token e os r fs))) =
    accounts r ++
      [withId {| AccountDraft.name := name;
                 AccountDraft.username := username;
                 AccountDraft.email := email;
                 AccountDraft.authType := authType;
                 AccountDraft.sshKeyPath := sshKeyPath;
                 AccountDraft.sshHost := sshHost |} (generateId e)]).
  { intros. unfold createAccount.
    destruct (if _ && _ then _ else _) as [fs' [[]|error]]; cbn [fst];
      apply addAccount_accounts. }
  destruct (addAccountCommand_cases input e os r fs)
    as [->|(name & username & email & _ & _ & _ & _ & Hfree & _ & _
            & [(sshKeyPath & sshHost & _ & _ & _ & _ & _ & ->)
              |(token & _ & _ & _ & ->)])];
    [done| |]; rewrite Hcreate;
    unfold uniqueNames in *; rewrite fmap_app; apply NoDup_app;
    (split; [done|]); (split; [|apply NoDup_singleton]);
    intros x Hx ->%list_elem_of_singleton; cbn in Hx;
    apply list_elem_of_fmap in Hx as (acc & Heq & Hin);
    exact (proj1 (getAccountByName_None _ _) Hfree acc Hin (eq_sym Heq)).
Qed.

End AddAccountCommandProps.

Lemma addAccountCommand_uniqueNames_witness :
  @uniqueNames Posix.platform
    (accounts (fst (fst (@addAccountCommand Posix.platform Session.answersClient
                           Scenario.reading3 carriedOut Scenario.registry
                           Scenario.noFiles)))).
Proof.
  apply (@addAccountCommand_uniqueNames Posix.platform).
  apply (bool_decide_unpack _). vm_compute. exact I.
Defined.

(** ** The remove-account command *)

Ltac services :=
  unfold setStatusBar, setRepoMappingService, setFileSystem, setRepos,
    setAccountManager in *;
  cbn [accountManager repoMappingService fileSystem repos statusBarManager
       accounts globalState_accounts secretStorage fst snd] in *.

Section RemoveAccountCommand.
Context `{Platform}.

(** The refresh at the end of a registered command sets the status bar,
    or rejects and leaves everything as it is. *)
Lemma thenRefresh_cases (workspaceFolder : option string) (s : Services) :
  (∃ bar,
     refresh workspaceFolder (accounts (accountManager s))
       (mappings (repoMappingService s)) (fileSystem s) (remoteUrls (repos s))
     = Ok bar
     ∧ thenRefresh workspaceFolder s = (setStatusBar bar s, Ok ()))
  ∨ (∃ message,
       refresh workspaceFolder (accounts (accountManager s))
         (mappings (repoMappingService s)) (fileSystem s) (remoteUrls (repos s))
       = Throw message
       ∧ thenRefresh workspaceFolder s = (s, Throw message)).
Proof.
  unfold thenRefresh.
  destruct (refresh _ _ _ _ _) as [bar|message]; [left|right]; by eexists.
Qed.

(** X22. When the user picks an account and confirms, the remove-account
    command as registered deletes that account from a registry with
    pairwise distinct ids, after which its id names no account; with
    any other answer to the confirmation the registry stays as it is.
    When the command returns, the status bar does not show the removed
    account; when it rejects, which it does when the refresh at its end
    throws on a repository file whose name is not a string, the account
    is removed all the same and the status bar is left as it was. In
    every case the command leaves the repository mappings, which may
    still name the account, the files and the repositories of git
    untouched. *)
Theorem gitManager_removeAccount_spec (workspaceFolder : option string)
    (index : nat) (confirm : option string) (s : Services)
    (account : GitAccount.t) :
  uniqueIds (accounts (accountManager s)) →
  accounts (accountManager s) !! index = Some account →
  let result := gitManager_removeAccount workspaceFolder (Some index) confirm s in
  let s' := fst (fst result) in
  (confirm ≠ Some "Remove" → accountManager s' = accountManager s)
  ∧ (confirm = Some "Remove" →
       accounts (accountManager s') = delete index (accounts (accountManager s))
       ∧ getAccountById (accounts (accountManager s')) (GitAccount.id account) = None
       ∧ (snd result = Ok () →
          currentAccountId (statusBarManager s') ≠ Some (GitAccount.id account)))
  ∧ (∀ message, snd result = Throw message →
       statusBarManager s' = statusBarManager s
       ∧ ∃ fsPath, workspaceFolder = Some fsPath
                   ∧ untypedName (accounts (accountManager s')) (fileSystem s)
                       fsPath = true)
  ∧ repoMappingService s' = repoMappingService s
  ∧ fileSystem s' = fileSystem s
  ∧ repos s' = repos s.
Proof.
  intros Hnd Hl result s'. subst s' result.
  unfold gitManager_removeAccount, removeAccountCommand, getAccounts.
  destruct (accounts (accountManager s)) as [|a l] eqn:Hs; [done|].
  rewrite <-Hs in *. cbn [mbind option_bind]. rewrite Hl.
  case_bool_decide as Hc.
  - destruct (lookup_unique_id _ _ _ Hnd Hl) as [Hn Hf].
    destruct (removeAccount_found _ _ _ Hf) as (n & Hn' & _ & ->).
    assert (n = index) as -> by congruence. cbn [fst].
    pose proof (delete_first_gone _ _ _ Hnd Hn) as Hgone.
    match goal with
    | |- context [thenRefresh workspaceFolder ?s1] =>
        destruct (thenRefresh_cases workspaceFolder s1)
          as [(bar & Hbar & ->)|(message & Hthrow & ->)]
    end; cbn.
    + split; [done|]. split; [|done]. intros _. split; [done|]. split; [done|].
      intros _ Hshown.
      destruct (refresh_current _ _ _ _ _ _ _ Hbar Hshown)
        as (_ & acc & _ & _ & Hacc & _).
      services. congruence.
    + split; [done|]. split; [by intros _|]. split; [|done].
      intros ? [= <-]. split; [done|].
      apply refresh_throws in Hthrow as (fsPath & -> & _ & Hname).
      by exists fsPath.
  - match goal with
    | |- context [thenRefresh workspaceFolder ?s1] =>
        destruct (thenRefresh_cases workspaceFolder s1)
          as [(bar & Hbar & ->)|(message & Hthrow & ->)]
    end; cbn.
    + split; [done|]. by split.
    + split; [done|]. split; [done|]. split; [|done].
      intros ? [= <-]. split; [done|].
      apply refresh_throws in Hthrow as (fsPath & -> & _ & Hname).
      by exists fsPath.
Qed.

End RemoveAccountCommand.

Lemma gitManager_removeAccount_spec_witness :
  accounts (accountManager
    (fst (fst (@gitManager_removeAccount Posix.platform (Some Scenario.repo)
                 (Some 1) (Some "Remove") Session.services))))
  = [Scenario.work].
Proof.
  refine (proj1 (proj1 (proj2 (@gitManager_removeAccount_spec Posix.platform
            (Some Scenario.repo) 1 (Some "Remove") Session.services
            Scenario.personal _ eq_refl)) eq_refl)).
  apply (bool_decide_unpack _). vm_compute. exact I.
Defined.

(** ** The switch-account command *)

Section SwitchAccountCommand.
Context `{Platform} `{Shell}.

Lemma detect_after_set (accts : list GitAccount.t)
    (table : list (string * RepoMapping.t)) (fs : FileSystem)
    (g : gmap string string) (repoPath accountId : string) :
  typedFile fs repoPath = true →
  fileOverride accts fs repoPath = None →
  remotePatternMapping table g repoPath = None →
  detectAccountForRepo accts
    (Map_set table repoPath
       {| RepoMapping.repoPath := repoPath;
          RepoMapping.accountId := accountId;
          RepoMapping.remotePattern := None |})
    fs g repoPath = Ok (Some accountId).
Proof.
  intros Htyped Hfile Hpattern.
  rewrite detect_chain, (typedFile_untypedName _ _ _ Htyped), Hfile.
  unfold remotePatternMapping, directPathMapping in *.
  rewrite Map_get_set_eq. cbn.
  destruct (getRemoteUrl g repoPath) as [url|]; [|done].
  destruct (JS.truthy url); [|done].
  destruct (find _ table) eqn:Hf; [done|].
  by rewrite find_Map_set_None.
Qed.

(** The git calls of a switch: the identity, then the remote for an SSH
    account, the second only when the first returned. *)
Lemma switchTo_cases (account : GitAccount.t) (fsPath : string) (s : Services) :
  (∃ g message,
     switchTo account fsPath s =
       (setRepos g s,
        [ErrorMessage ("Failed to switch account: Error: " +:+ message)])
     ∧ (setUserConfig (Some fsPath) (GitAccount.username account)
          (GitAccount.email account) fsPath (repos s) = (g, Throw message)
        ∨ ∃ g1,
            setUserConfig (Some fsPath) (GitAccount.username account)
              (GitAccount.email account) fsPath (repos s) = (g1, Ok ())
            ∧ GitAccount.authType account = ssh
            ∧ configureSSHForAccount (Some fsPath) account fsPath g1 =
                (g, Throw message)))
  ∨ (∃ g g1,
       switchTo account fsPath s =
         (setStatusBar
            (setAccount (accounts (accountManager s)) (GitAccount.id account)
               (statusBarManager s))
            (setRepoMappingService
               (setMapping fsPath (GitAccount.id account) None
                  (repoMappingService s))
               (setRepos g s)),
          [Information
             (quoted "Switched to account " (GitAccount.name account)
                EmptyString)])
       ∧ setUserConfig (Some fsPath) (GitAccount.username account)
           (GitAccount.email account) fsPath (repos s) = (g1, Ok ())
       ∧ (if bool_decide (GitAccount.authType account = ssh)
          then configureSSHForAccount (Some fsPath) account fsPath g1 = (g, Ok ())
          else g = g1)).
Proof.
  unfold switchTo.
  destruct (setUserConfig _ _ _ _ _) as [g1 [[]|message]].
  - case_bool_decide as Hssh.
    + destruct (configureSSHForAccount _ _ _ _) as [g [[]|message]] eqn:Hc.
      * right. by exists g, g1.
      * left. exists g, message. split; [done|]. right. by exists g1.
    + right. by exists g1, g1.
  - left. exists g1, message. split; [done|]. by left.
Qed.


(** X24. What a switch that went through leaves on the status bar is
    what a refresh shows afterwards, provided the account's id is not
    empty, the repository file, if there is one that parses, has string
    properties and resolves no account, and no pattern of the table
    matches the remote as the switch left it. *)
Theorem switch_then_refresh (fsPath : string) (index : nat)
    (action : option string) (input : AddAccountInput) (e : Entropy)
    (os : Writes) (s : Services) (account : GitAccount.t) :
  uniqueIds (accounts (accountManager s)) →
  accounts (accountManager s) !! index = Some account →
  JS.truthy (GitAccount.id account) = true →
  typedFile (fileSystem s) fsPath = true →
  fileOverride (accounts (accountManager s)) (fileSystem s) fsPath = None →
  let result := switchAccountCommand (Some fsPath) action
                  (Some (PickAccount index)) input e os s in
  let s' := fst (fst result) in
  snd (fst result) =
    [Information
       (quoted "Switched to account " (GitAccount.name account) EmptyString)] →
  remotePatternMapping (mappings (repoMappingService s)) (remoteUrls (repos s'))
    fsPath = None →
  refresh (Some fsPath) (accounts (accountManager s'))
    (mappings (repoMappingService s')) (fileSystem s') (remoteUrls (repos s'))
  = Ok (statusBarManager s').
Proof.
  intros Hnd Hl Hid Htyped Hfile result s'. subst s' result.
  unfold switchAccountCommand, getAccounts.
  destruct (accounts (accountManager s)) as [|a l] eqn:Hs; [done|].
  rewrite <-Hs in *. rewrite Hl.
  destruct (lookup_unique_id _ _ _ Hnd Hl) as [_ Hf].
  destruct (switchTo_cases account fsPath s)
    as [(g & message & -> & Hgit)|(g & g1 & -> & Hconfig & Hssh)]; services;
    [done|].
  intros _ Hpattern. unfold setAccount. rewrite Hf.
  unfold setMapping. cbn [mappings saveMappings].
  apply (refresh_found _ _ _ _ _ (GitAccount.id account)); [|done|done].
  by apply detect_after_set.
Qed.

End SwitchAccountCommand.


Lemma switch_then_refresh_witness :
  @refresh Posix.platform (Some Scenario.repo) [Scenario.work; Scenario.personal]
    (mappings (repoMappingService
       (fst (fst (@switchAccountCommand Posix.platform Posix.shell
                    (Some Scenario.repo) None (Some (PickAccount 0))
                    Session.answersClient Scenario.reading3 carriedOut
                    Session.services)))))
    Scenario.noFiles
    {[ Scenario.repo := "git@github.com-work:alice/project.git" ]}
  = Ok (showing Scenario.work).
Proof.
  refine (@switch_then_refresh Posix.platform Posix.shell Scenario.repo 0 None
            Session.answersClient Scenario.reading3 carriedOut Session.services
            Scenario.work _ eq_refl eq_refl _ _ _ _).
  - apply (bool_decide_unpack _). vm_compute. exact I.
  - vm_compute. reflexivity.
  - vm_compute. reflexivity.
  - vm_compute. reflexivity.
  - vm_compute. reflexivity.
Defined.

(** ** The configure-repository command *)

Section ConfigureRepoCommand.
Context `{Platform}.

Lemma detect_written (accts : list GitAccount.t)
    (table : list (string * RepoMapping.t)) (fs : FileSystem)
    (g : gmap string string) (repoPath : string) (account : GitAccount.t) :
  getAccountById accts (GitAccount.id account) = Some account →
  JS.truthy (GitAccount.id account) = true →
  JSON_parse (JSON.stringify (configOf account)) =
    Some (FileConfig.ofStrings (configOf account)) →
  detectAccountForRepo accts table
    (writeFileSync fs (gitAccountPath repoPath) (JSON.stringify (configOf account)))
    g repoPath = Ok (Some (GitAccount.id account)).
Proof.
  intros Hacc Hi Hparse. unfold detectAccountForRepo.
  rewrite read_after_write, Hparse. cbn -[getAccountById].
  by rewrite Hi, Hacc.
Qed.

(** X25. The configure-repository command fails in one way only: the
    repository file was chosen and the operating system refused the
    write, whose error is then the command's. It never fails with
    [Account not found], although [writeGitAccountFile] throws that for
    an id of no account: the id it passes is that of a picked account.
    When it returns, it has left the registry, the repositories of git
    and the status bar as they are, changed the files only when the
    repository file was chosen and the mappings only when the settings
    were chosen, and then only the file [.gitaccount] of the workspace
    folder or the mapping of its path. *)
Theorem configureRepoCommand_outcomes (workspaceFolder : option string)
    (picked : option nat) (saveOption : option SaveOption) (os : Writes)
    (s : Services) :
  match configureRepoCommand workspaceFolder picked saveOption os s with
  | Throw message =>
      saveOption = Some file
      ∧ writeFileSync_error os = Some message
      ∧ ∃ fsPath index account,
          workspaceFolder = Some fsPath
          ∧ picked = Some index
          ∧ accounts (accountManager s) !! index = Some account
  | Ok (s', notices) =>
      accountManager s' = accountManager s
      ∧ repos s' = repos s
      ∧ statusBarManager s' = statusBarManager s
      ∧ (saveOption ≠ Some file → fileSystem s' = fileSystem s)
      ∧ (saveOption ≠ Some settings →
         repoMappingService s' = repoMappingService s)
      ∧ ∀ fsPath, workspaceFolder = Some fsPath →
          (∀ p, p ≠ gitAccountPath fsPath →
             readFileSync (fileSystem s') p = readFileSync (fileSystem s) p)
          ∧ (∀ p, p ≠ fsPath →
               getMapping p (repoMappingService s') =
                 getMapping p (repoMappingService s))
  end.
Proof.
  unfold configureRepoCommand, getAccounts.
  destruct workspaceFolder as [fsPath|]; [|done].
  destruct (accounts (accountManager s)) as [|a l] eqn:Hs; [done|].
  rewrite <-Hs.
  destruct (picked ≫= _) as [account|] eqn:Hpick; [|done].
  destruct picked as [index|]; [|done]. cbn in Hpick.
  pose proof Hpick as Hin.
  apply list_elem_of_lookup_2, getAccountById_elem in Hin
    as (found & Hfound & _ & _).
  destruct saveOption as [[|]|]; [| |done].
  - services. do 5 (split; [done|]).
    intros ? [= <-]. split; [done|]. intros p Hp. by apply Map_get_set_ne.
  - unfold writeGitAccountFile_under. rewrite Hfound.
    destruct (writeFileSync_error os) as [error|] eqn:Hos.
    + split; [done|]. split; [done|]. by exists fsPath, index, account.
    + services. do 5 (split; [done|]).
      intros ? [= <-]. split; [|done]. intros p Hp.
      unfold readFileSync, writeFileSync. cbn. by rewrite lookup_insert_ne.
Qed.

(** X26. After the configure-repository command as registered, for an
    account picked from a registry with pairwise distinct ids whose id
    is not empty, the command returns and the status bar shows that
    account: with the repository file, provided the operating system
    carries out the write and the JSON reader gives back the object
    that was written; with the settings, provided the repository file,
    if there is one that parses, has string properties and resolves no
    account, and no pattern of the table matches the remote. *)
Theorem gitManager_configureRepo_shows (fsPath : string) (index : nat)
    (saveOption : SaveOption) (os : Writes) (s : Services)
    (account : GitAccount.t) :
  uniqueIds (accounts (accountManager s)) →
  accounts (accountManager s) !! index = Some account →
  JS.truthy (GitAccount.id account) = true →
  match saveOption with
  | file =>
      writeFileSync_error os = None
      ∧ JSON_parse (JSON.stringify (configOf account)) =
          Some (FileConfig.ofStrings (configOf account))
  | settings =>
      typedFile (fileSystem s) fsPath = true
      ∧ fileOverride (accounts (accountManager s)) (fileSystem s) fsPath = None
      ∧ remotePatternMapping (mappings (repoMappingService s))
          (remoteUrls (repos s)) fsPath = None
  end →
  ∃ s' notices,
    gitManager_configureRepo (Some fsPath) (Some index) (Some saveOption) os s =
      (s', notices, Ok ())
    ∧ statusBarManager s' = showing account.
Proof.
  intros Hnd Hl Hid Hopt.
  unfold gitManager_configureRepo, configureRepoCommand, getAccounts.
  destruct (accounts (accountManager s)) as [|a l] eqn:Hs; [done|].
  rewrite <-Hs in *. cbn [mbind option_bind]. rewrite Hl.
  destruct (lookup_unique_id _ _ _ Hnd Hl) as [_ Hf].
  destruct saveOption.
  - destruct Hopt as (Htyped & Hfile & Hpattern).
    unfold thenRefresh. services.
    unfold setMapping. cbn [mappings saveMappings].
    rewrite (refresh_found _ _ _ _ _ (GitAccount.id account) account);
      [by eexists _, _|by apply detect_after_set|done|done].
  - destruct Hopt as [Hos Hparse].
    unfold writeGitAccountFile_under. rewrite Hf, Hos.
    unfold thenRefresh. services.
    rewrite (refresh_found _ _ _ _ _ (GitAccount.id account) account);
      [by eexists _, _|by apply detect_written|done|done].
Qed.

End ConfigureRepoCommand.

Lemma gitManager_configureRepo_shows_witness :
  ∃ s' notices,
    @gitManager_configureRepo Posix.platform (Some Scenario.repo) (Some 0)
      (Some file) carriedOut Session.services = (s', notices, Ok ())
    ∧ statusBarManager s' = showing Scenario.work.
Proof.
  refine (@gitManager_configureRepo_shows Posix.platform Scenario.repo 0 file
            carriedOut Session.services Scenario.work _ eq_refl eq_refl _).
  - apply (bool_decide_unpack _). vm_compute. exact I.
  - split; [reflexivity|]. vm_compute. reflexivity.
Defined.

(** ** The commands on the session *)



Lemma configureRepoCommand_outcomes_witness :
  @configureRepoCommand Posix.platform (Some Scenario.repo) (Some 0) (Some file)
    {| mkdirSync_error := None;
       appendFileSync_error := None;
       writeFileSync_error := Some "Error: EACCES: permission denied" |}
    Session.services
  = Throw "Error: EACCES: permission denied".
Proof.
  pose proof (@configureRepoCommand_outcomes Posix.platform (Some Scenario.repo)
                (Some 0) (Some file)
                {| mkdirSync_error := None;
                   appendFileSync_error := None;
                   writeFileSync_error := Some "Error: EACCES: permission denied" |}
                Session.services) as Hout.
  destruct (configureRepoCommand _ _ _ _ _) as [[s' notices]|message] eqn:Hrun.
  - vm_compute in Hrun. discriminate Hrun.
  - destruct Hout as (_ & Hos & _). by injection Hos as <-.
Defined.
